(** * DeFi-Wizzard frontend: chat transcript window and survey lifecycle

    A shallow embedding of the two React components of the frontend,
    [ChatPage] and [SurveyModal], and the properties of their state handling.

    Conventions of the embedding
    - a JavaScript string is its sequence of UTF-16 code units ([jsstring]);
    - a React state cell is a field of the component's state record, and a
      [setX] call is an update of that field;
    - an [async] handler is a computation in the monad [M]: it threads the
      component state, records the requests and callbacks it issues in a
      trace, and either returns or throws (a rejected promise);
    - the outcome of every awaited backend call is an argument of the
      handler, so a handler can be run on a resolved as well as on a rejected
      call;
    - the run of a handler holds the updates of that handler alone, from its
      first statement to its return or throw, applied in order to the state
      it started from. *)

From Stdlib Require Import NArith Ascii String.
From stdpp Require Import base option list sorting strings pretty gmap.

Local Open Scope string_scope.
Local Open Scope nat_scope.
Local Open Scope list_scope.

(** ** JavaScript values *)

(** A string value: UTF-16 code units. *)
Abbreviation jsstring := (list N).

(** The code units of an ASCII literal. *)
Definition lit (s : string) : jsstring :=
  map N_of_ascii (list_ascii_of_string s).

(** Truthiness of a string: only the empty string is falsy. *)
Definition truthy (s : jsstring) : bool :=
  match s with
  | [] => false
  | _ :: _ => true
  end.

(** Truthiness of a value that is a string, [null] or [undefined]
    (here [None]). *)
Definition truthy_opt (o : option jsstring) : bool :=
  match o with
  | Some s => truthy s
  | None => false
  end.

(** [a || b] where [a] may be [undefined]. *)
Definition js_or (a : option jsstring) (b : jsstring) : jsstring :=
  match a with
  | Some s => if truthy s then s else b
  | None => b
  end.

(** ECMAScript WhiteSpace and LineTerminator code points, the characters
    [String.prototype.trim] strips. All of them lie in the basic plane, so
    the test is on single code units. *)
Definition is_white_space (c : N) : bool :=
  match c with
  | 0x0009 | 0x000A | 0x000B | 0x000C | 0x000D | 0x0020 | 0x00A0
  | 0x1680
  | 0x2000 | 0x2001 | 0x2002 | 0x2003 | 0x2004 | 0x2005
  | 0x2006 | 0x2007 | 0x2008 | 0x2009 | 0x200A
  | 0x2028 | 0x2029 | 0x202F | 0x205F | 0x3000 | 0xFEFF => true
  | _ => false
  end%N.

Fixpoint trim_start (s : jsstring) : jsstring :=
  match s with
  | [] => []
  | c :: s' => if is_white_space c then trim_start s' else s
  end.

Definition trim_end (s : jsstring) : jsstring :=
  rev (trim_start (rev s)).

(** [s.trim()] *)
Definition trim (s : jsstring) : jsstring :=
  trim_end (trim_start s).

(** A thrown value (the reason of a rejected promise). *)
Inductive js_error : Type :=
| JsError (reason : jsstring).

(** ** Effects *)

(** The settled state of an awaited promise. *)
Inductive settled (A : Type) : Type :=
| Resolved (a : A)
| Rejected (e : js_error).
Arguments Resolved {A} a.
Arguments Rejected {A} e.

Module Eff.
Section Eff.
(** [St] is the component state, [Ev] the observable actions. *)
Context {St Ev : Type}.

(** How a computation ends. *)
Inductive completion (A : Type) : Type :=
| Returned (a : A)
| Threw (e : js_error).
Global Arguments Returned {A} a.
Global Arguments Threw {A} e.

Record run (A : Type) : Type := Run {
  final : St;
  trace : list Ev;
  result : completion A
}.
Global Arguments Run {A} final trace result.
Global Arguments final {A} r.
Global Arguments trace {A} r.
Global Arguments result {A} r.

Definition M (A : Type) : Type := St → run A.

Definition ret {A} (a : A) : M A :=
  fun s => Run s [] (Returned a).

Definition bind {A B} (c : M A) (k : A → M B) : M B :=
  fun s =>
    let r := c s in
    match result r with
    | Returned a =>
        let r' := k a (final r) in
        Run (final r') (trace r ++ trace r') (result r')
    | Threw e => Run (final r) (trace r) (Threw e)
    end.

(** The state as the running handler sees it. *)
Definition get : M St :=
  fun s => Run s [] (Returned s).

(** A state update [setX(...)]. *)
Definition modify (f : St → St) : M unit :=
  fun s => Run (f s) [] (Returned tt).

(** An observable action with no result. *)
Definition emit (e : Ev) : M unit :=
  fun s => Run s [e] (Returned tt).

(** [throw e], and the continuation of [await] on a rejected promise. *)
Definition throw {A} (e : js_error) : M A :=
  fun s => Run s [] (Threw e).

(** [await p] for a promise that settles as [p]. *)
Definition await {A} (p : settled A) : M A :=
  match p with
  | Resolved a => ret a
  | Rejected e => throw e
  end.

(** [try { body } catch (e) { handler e } finally { fin }] *)
Definition try_catch_finally (body : M unit) (handler : js_error → M unit)
    (fin : M unit) : M unit :=
  fun s =>
    let r := body s in
    let r1 :=
      match result r with
      | Returned _ => r
      | Threw e =>
          let h := handler e (final r) in
          Run (final h) (trace r ++ trace h) (result h)
      end in
    let f := fin (final r1) in
    Run (final f) (trace r1 ++ trace f)
      (match result f with
       | Returned _ => result r1
       | Threw e => Threw e
       end).
End Eff.
Arguments M : clear implicits.
Arguments run : clear implicits.
End Eff.

Import Eff.

(** The monad plugs into the [c ≫= k], [x ← c; k] and [c;; k] notations. *)
#[global] Instance M_ret {St Ev} : MRet (M St Ev) := @ret St Ev.
#[global] Instance M_bind {St Ev} : MBind (M St Ev) :=
  fun A B k c => bind c k.

(** ** The chat page *)

Module ChatApi.
Inductive Role : Type :=
| user
| assistant.

(** Modelled from the spec: the [Message] type of [api/chat/types], which
    the component imports: a role, the text, an ISO-8601 timestamp (the
    component reads it as [msg.timestamp!], so it may be absent) and an
    optional mapping from action names to metadata. *)
Record Message : Type := {
  role : Role;
  content : jsstring;
  timestamp : option jsstring;
  functions : option (gmap string jsstring)
}.

(** Modelled from the spec: the response of [api.chat.messages],
    [{entries: [{messages: Message[]}]}]. *)
Record Entry : Type := { messages : list Message }.
Record MessagesResponse : Type := { entries : list Entry }.
End ChatApi.

Module ChatPage.
Import ChatApi.

Definition messagesPerPage : nat := 20.

(** The state cells of the component. *)
Record State : Type := {
  input : jsstring;
  page : nat;
  messages : list Message;
  isLoading : bool
}.

(** [useState('')], [useState(1)], [useState([])], [useState(false)] *)
Definition initial : State :=
  {| input := []; page := 1; messages := []; isLoading := false |}.

(** The requests the page sends to the backend. *)
Inductive Event : Type :=
| CallMessages (userId : jsstring) (page : nat)
| CallSendMessage (userId message : jsstring).

Abbreviation M := (Eff.M State Event).

Definition setInput (v : jsstring) : M unit :=
  modify (fun s => {| input := v; page := page s;
                      messages := messages s; isLoading := isLoading s |}).

Definition setMessages (f : list Message → list Message) : M unit :=
  modify (fun s => {| input := input s; page := page s;
                      messages := f (messages s); isLoading := isLoading s |}).

Definition setIsLoading (b : bool) : M unit :=
  modify (fun s => {| input := input s; page := page s;
                      messages := messages s; isLoading := b |}).

(** [Array.prototype.shift]: drops the first element, if there is one. *)
Definition shift {A} (l : list A) : list A :=
  match l with
  | [] => []
  | _ :: l' => l'
  end.

(** The updater [appendMessage] passes to [setMessages]. *)
Definition appended (message : Message) (prev : list Message) : list Message :=
  let current := prev in
  let current :=
    if messagesPerPage * 2 <=? length prev
    then shift (shift current)
    else current in
  current ++ [message].

Definition appendMessage (message : Message) : M unit :=
  setMessages (appended message).

(** The transcript [loadPage] builds from a response. *)
Definition flattened (data : MessagesResponse) : list Message :=
  flat_map (fun entry => rev (ChatApi.messages entry)) (rev (entries data)).

(** [fetched] is how [api.chat.messages(userId, page)] settles. *)
Definition loadPage (userId : jsstring) (page : nat)
    (fetched : settled MessagesResponse) : M unit :=
  setIsLoading true;;
  emit (CallMessages userId page);;
  data ← await fetched;
  let messages := flattened data in
  setMessages (fun _ => messages);;
  setIsLoading false.

(** [now] is [new Date().toISOString()], [reply] is how
    [api.chat.sendMessage(userId, message)] settles. *)
Definition sendMessage (userId message : jsstring) (now : jsstring)
    (reply : settled Message) : M unit :=
  let userMessage :=
    {| role := user; content := message;
       timestamp := Some now; functions := None |} in
  appendMessage userMessage;;
  emit (CallSendMessage userId message);;
  answer ← await reply;
  appendMessage answer.

(** The effect that loads the first page; [user] comes from the user
    context. *)
Definition initialLoadEffect (user : option jsstring)
    (fetched : settled MessagesResponse) : M unit :=
  s ← get;
  match user with
  | Some u =>
      if truthy u && (length (messages s) =? 0)
      then loadPage u (page s) fetched
      else mret tt
  | None => mret tt
  end.

Definition handleSendMessage (user : option jsstring) (now : jsstring)
    (reply : settled Message) : M unit :=
  s ← get;
  let input := input s in
  if negb (truthy (trim input)) then mret tt
  else
    match user with
    | Some u =>
        if truthy u
        then setInput [];; sendMessage u input now reply
        else mret tt
    | None => mret tt
    end.

(** The label of the recommendations button, sent as a user message. *)
Definition investRequest : jsstring :=
  [0x418; 0x43d; 0x432; 0x435; 0x441; 0x442; 0x438; 0x446; 0x438; 0x43e;
   0x43d; 0x43d; 0x44b; 0x435; 0x20; 0x440; 0x435; 0x43a; 0x43e; 0x43c;
   0x435; 0x43d; 0x434; 0x430; 0x446; 0x438; 0x438]%N.

(** The synchronous part of [handleInvestRecommendations]. *)
Definition handleInvestRecommendations (now : jsstring) : M unit :=
  appendMessage {| role := user; content := investRequest;
                   timestamp := Some now; functions := None |}.

(** Its [setTimeout] callback, 2500 ms later; [mockInvestMessage] is
    imported from a module outside this development. *)
Definition investTimeout (mockInvestMessage : Message) : M unit :=
  appendMessage mockInvestMessage.

(** What can happen to the page: the callbacks React runs. *)
Inductive Action : Type :=
| InitialLoad (user : option jsstring) (fetched : settled MessagesResponse)
| Change (value : jsstring)
| Send (user : option jsstring) (now : jsstring) (reply : settled Message)
| Recommend (now : jsstring)
| RecommendTimeout (mockInvestMessage : Message).

Definition perform (a : Action) : M unit :=
  match a with
  | InitialLoad u fetched => initialLoadEffect u fetched
  | Change v => setInput v
  | Send u now reply => handleSendMessage u now reply
  | Recommend now => handleInvestRecommendations now
  | RecommendTimeout m => investTimeout m
  end.

(** The history page an action receives, if it loads one. *)
Definition loaded (a : Action) : option MessagesResponse :=
  match a with
  | InitialLoad _ (Resolved data) => Some data
  | _ => None
  end.

(** States the page reaches from [initial] when every history page it is
    given satisfies [ok]. *)
Inductive reachable (ok : MessagesResponse → Prop) : State → Prop :=
| reachable_initial : reachable ok initial
| reachable_perform s a :
    reachable ok s →
    (∀ data, loaded a = Some data → ok data) →
    reachable ok (final (perform a s)).

(** The actions one after the other, each on the state the previous one
    left, whether it returned or threw. *)
Definition perform_all (actions : list Action) (s : State) : State :=
  foldl (fun s a => final (perform a s)) s actions.

(** The bound of the window, [messagesPerPage * 2]. *)
Definition capacity : nat := 2 * messagesPerPage.

(** The messages of a history page in the order the backend sends them. *)
Definition received (data : MessagesResponse) : list Message :=
  flat_map ChatApi.messages (entries data).

(** The number of messages a history page holds. *)
Definition held (data : MessagesResponse) : nat :=
  length (received data).

(** Orders of a transcript with respect to a relation [older] on messages:
    every message is older than all that follow it, or newer than all that
    follow it. *)
Definition chronological (older : relation Message) (l : list Message) : Prop :=
  StronglySorted older l.

Definition newest_first (older : relation Message) (l : list Message) : Prop :=
  StronglySorted (flip older) l.

(** A history page as the backend sends it: within each entry the messages
    come newest first, and every message of an entry is newer than every
    message of the entries after it. *)
Definition entry_newest_first (older : relation Message) (entry : Entry) : Prop :=
  newest_first older (ChatApi.messages entry).

Definition entry_newer (older : relation Message) (e1 e2 : Entry) : Prop :=
  Forall (fun m1 => Forall (fun m2 => older m2 m1) (ChatApi.messages e2))
         (ChatApi.messages e1).

Definition page_newest_first (older : relation Message)
    (data : MessagesResponse) : Prop :=
  Forall (entry_newest_first older) (entries data) ∧
  StronglySorted (entry_newer older) (entries data).

(** [a < b] on strings: lexicographic on code units. On timestamps written
    by [toISOString] it is the order in time. *)
Fixpoint js_ltb (a b : jsstring) : bool :=
  match a, b with
  | _, [] => false
  | [], _ :: _ => true
  | x :: a', y :: b' =>
      if (x <? y)%N then true
      else if (y <? x)%N then false
      else js_ltb a' b'
  end.

Definition earlier (a b : Message) : Prop :=
  match timestamp a, timestamp b with
  | Some x, Some y => js_ltb x y = true
  | _, _ => False
  end.
End ChatPage.

(** ** The survey modal *)

Module SurveyApi.
(** Modelled from the spec: the request and response types of
    [api/survey/types], which the component imports. A question the form
    does not hold is [undefined] in the request, here [None]. *)
Record SurveyAnswersRequest : Type := {
  user_id : jsstring;
  question_1 : option jsstring;
  question_2 : option jsstring;
  question_3 : option jsstring;
  question_4 : option jsstring;
  question_5 : option jsstring
}.

(** [GET /survey/answers] *)
Record SurveyAnswersResponse : Type := { answers : list jsstring }.

(** [POST /survey/answers] *)
Record SurveySummaryResponse : Type := { summary : jsstring }.
End SurveyApi.

(** [await Promise.all([p, q])]: resolved with both values, or rejected with
    the reason of the promise that rejects first; [q_first] tells that [q]
    settles before [p]. *)
Definition promise_all {A B} (p : settled A) (q : settled B) (q_first : bool)
    : settled (A * B) :=
  match p, q with
  | Resolved a, Resolved b => Resolved (a, b)
  | Rejected e, Resolved _ => Rejected e
  | Resolved _, Rejected e => Rejected e
  | Rejected e1, Rejected e2 => Rejected (if q_first then e2 else e1)
  end.

Module SurveyModal.
Import SurveyApi.

(** The state cells of the component; [form] is the value store of the
    form instance, from field names to the text typed in. *)
Record State : Type := {
  loading : bool;
  questions : list jsstring;
  savedAnswers : option SurveyAnswersResponse;
  form : gmap string jsstring;
  summaryModalOpen : bool;
  summaryData : jsstring
}.

Definition initial : State :=
  {| loading := false; questions := []; savedAnswers := None; form := ∅;
     summaryModalOpen := false; summaryData := [] |}.

(** Requests, log lines and calls of the [onClose] property. *)
Inductive Event : Type :=
| CallGetQuestions
| CallGetAnswers (user : option jsstring)
| CallSubmitAnswers (answers : SurveyAnswersRequest)
| ConsoleError (label : jsstring) (error : js_error)
| OnClose.

Abbreviation M := (Eff.M State Event).

Definition setLoading (b : bool) : M unit :=
  modify (fun s =>
    {| loading := b; questions := questions s;
       savedAnswers := savedAnswers s; form := form s;
       summaryModalOpen := summaryModalOpen s;
       summaryData := summaryData s |}).

Definition setQuestions (q : list jsstring) : M unit :=
  modify (fun s =>
    {| loading := loading s; questions := q;
       savedAnswers := savedAnswers s; form := form s;
       summaryModalOpen := summaryModalOpen s;
       summaryData := summaryData s |}).

Definition setSavedAnswers (a : option SurveyAnswersResponse) : M unit :=
  modify (fun s =>
    {| loading := loading s; questions := questions s;
       savedAnswers := a; form := form s;
       summaryModalOpen := summaryModalOpen s;
       summaryData := summaryData s |}).

Definition setSummaryModalOpen (b : bool) : M unit :=
  modify (fun s =>
    {| loading := loading s; questions := questions s;
       savedAnswers := savedAnswers s; form := form s;
       summaryModalOpen := b; summaryData := summaryData s |}).

Definition setSummaryData (d : jsstring) : M unit :=
  modify (fun s =>
    {| loading := loading s; questions := questions s;
       savedAnswers := savedAnswers s; form := form s;
       summaryModalOpen := summaryModalOpen s; summaryData := d |}).

(** [form.setFieldsValue(values)]: the given fields overwrite the store. *)
Definition setFieldsValue (values : gmap string jsstring) : M unit :=
  modify (fun s =>
    {| loading := loading s; questions := questions s;
       savedAnswers := savedAnswers s; form := values ∪ form s;
       summaryModalOpen := summaryModalOpen s;
       summaryData := summaryData s |}).

(** [user] comes from the user context; [qs] and [ans] are how the two
    requests settle. *)
Definition loadData (user : option jsstring)
    (qs : settled (list jsstring)) (ans : settled SurveyAnswersResponse)
    (ans_first : bool) : M unit :=
  try_catch_finally
    (setLoading true;;
     emit CallGetQuestions;;
     emit (CallGetAnswers user);;
     both ← await (promise_all qs ans ans_first);
     let '(questionsResponse, answersResponse) := both in
     setQuestions questionsResponse;;
     setSavedAnswers (Some answersResponse))
    (fun error => emit (ConsoleError (lit "Error loading survey data:") error))
    (setLoading false).

(** The object literal [mapAnswersToFormValues] returns. *)
Record FormValues : Type := {
  question1 : jsstring;
  question2 : jsstring;
  question3 : jsstring;
  question4 : jsstring;
  question5 : jsstring
}.

Definition mapAnswersToFormValues (answers : list jsstring) : FormValues :=
  {| question1 := js_or (answers !! 0) [];
     question2 := js_or (answers !! 1) [];
     question3 := js_or (answers !! 2) [];
     question4 := js_or (answers !! 3) [];
     question5 := js_or (answers !! 4) [] |}.

(** The object as a mapping from its property names. *)
Definition properties (v : FormValues) : gmap string jsstring :=
  <["question1" := question1 v]>
  (<["question2" := question2 v]>
  (<["question3" := question3 v]>
  (<["question4" := question4 v]>
  (<["question5" := question5 v]> ∅)))).

(** The effect that fills the form once answers and questions are there. *)
Definition prefillEffect : M unit :=
  s ← get;
  match savedAnswers s with
  | Some saved =>
      if 0 <? length (questions s)
      then setFieldsValue (properties (mapAnswersToFormValues (answers saved)))
      else mret tt
  | None => mret tt
  end.

(** The request [handleSubmit] builds from the validated form values. *)
Definition request (user : jsstring) (values : gmap string jsstring)
    : SurveyAnswersRequest :=
  {| user_id := user;
     question_1 := values !! "question1";
     question_2 := values !! "question2";
     question_3 := values !! "question3";
     question_4 := values !! "question4";
     question_5 := values !! "question5" |}.

(** [submitted] is how [api.survey.submitAnswers(answers)] settles. *)
Definition handleSubmit (user : option jsstring)
    (values : gmap string jsstring)
    (submitted : settled SurveySummaryResponse) : M unit :=
  match user with
  | Some u =>
      if negb (truthy u) then mret tt
      else
        let answers := request u values in
        try_catch_finally
          (setLoading true;;
           emit (CallSubmitAnswers answers);;
           response ← await submitted;
           setSummaryData (summary response);;
           emit OnClose;;
           setSummaryModalOpen true)
          (fun error =>
             emit (ConsoleError (lit "Error submitting answers:") error))
          (setLoading false)
  | None => mret tt
  end.

(** What the result modal shows. *)
Inductive SummaryBody : Type :=
| Markdown (text : jsstring)
| Pending.

(** The second [Modal] of the render: nothing while it is closed. *)
Definition summaryModal (s : State) : option SummaryBody :=
  if summaryModalOpen s
  then Some (if truthy (summaryData s)
             then Markdown (summaryData s)
             else Pending)
  else None.

(** The requests a trace submits. *)
Definition submissions (t : list Event) : list SurveyAnswersRequest :=
  flat_map (fun ev =>
    match ev with
    | CallSubmitAnswers answers => [answers]
    | _ => []
    end) t.

(** The backend requests of a trace. *)
Definition is_request (ev : Event) : bool :=
  match ev with
  | CallGetQuestions | CallGetAnswers _ | CallSubmitAnswers _ => true
  | ConsoleError _ _ | OnClose => false
  end.

(** The state with the loading flag cleared and nothing else touched. *)
Definition idle (s : State) : State :=
  {| loading := false; questions := questions s;
     savedAnswers := savedAnswers s; form := form s;
     summaryModalOpen := summaryModalOpen s;
     summaryData := summaryData s |}.

(** The field [questionN] of the object, for [N] in 1..5. *)
Definition field (v : FormValues) (n : nat) : option jsstring :=
  properties v !! ("question" +:+ pretty n).
End SurveyModal.

(** ** The keyboard, the action buttons and the swap *)

Module ChatView.
Import ChatApi ChatPage.

(** The fields of a [React.KeyboardEvent] the page reads. *)
Record KeyboardEvent : Type := {
  key : jsstring;
  shiftKey : bool
}.

(** What a key press leads to: whether [e.preventDefault()] was called, and
    the run of the send handler it started. The send handler is not awaited:
    when its run throws, that is an unhandled rejection, not an exception of
    [handleKeyDown]. *)
Record KeyDown : Type := {
  defaultPrevented : bool;
  started : Eff.run State ChatPage.Event unit
}.

Definition handleKeyDown (e : KeyboardEvent) (user : option jsstring)
    (now : jsstring) (reply : settled Message) (s : State) : KeyDown :=
  if bool_decide (key e = lit "Enter") && negb (shiftKey e)
  then {| defaultPrevented := true;
          started := handleSendMessage user now reply s |}
  else {| defaultPrevented := false;
          started := Run s [] (Returned tt) |}.

(** The pages asked of the backend in a trace. *)
Definition requested_pages (t : list ChatPage.Event) : list nat :=
  flat_map (fun ev =>
    match ev with
    | CallMessages _ p => [p]
    | CallSendMessage _ _ => []
    end) t.

(** The wallet call and the notifications of [handleSwap]. *)
Inductive SwapEvent : Type :=
| CallSwapHardcode
| NotifySuccess (message description placement : jsstring)
| NotifyError (message description placement : jsstring).

Definition success_title : jsstring :=
  [0x423; 0x441; 0x43f; 0x435; 0x445]%N.

Definition success_text : jsstring :=
  [0x41e; 0x431; 0x43c; 0x435; 0x43d; 0x20; 0x432; 0x44b; 0x43f; 0x43e;
   0x43b; 0x43d; 0x435; 0x43d; 0x20; 0x443; 0x441; 0x43f; 0x435; 0x448;
   0x43d; 0x43e]%N.

(** [swapped] is how [swapHardcode()] settles;
    [p.then(f).catch(g)] runs [f] when [p] resolves, and [g] when [p]
    rejects or [f] throws. *)
Definition handleSwap (swapped : settled unit) : Eff.M State SwapEvent unit :=
  emit CallSwapHardcode;;
  try_catch_finally
    (await swapped;;
     emit (NotifySuccess success_title success_text (lit "topRight")))
    (fun _ => emit (NotifySuccess success_title success_text (lit "topRight")))
    (mret tt).

(** The button labels. *)
Definition swap_label : jsstring :=
  [0x41e; 0x431; 0x43c; 0x435; 0x43d; 0x44f; 0x442; 0x44c]%N.

Definition addLiquidity_label : jsstring :=
  [0x414; 0x43e; 0x431; 0x430; 0x432; 0x438; 0x442; 0x44c; 0x20; 0x43b;
   0x438; 0x43a; 0x432; 0x438; 0x434; 0x43d; 0x43e; 0x441; 0x442; 0x44c]%N.

(** What a click on a button runs. *)
Inductive ClickHandler : Type :=
| RunHandleSwap.

Record FunctionButton : Type := {
  button_key : string;
  label : jsstring;
  onClick : ClickHandler
}.

(** [{key === 'swap' && ...}{key === 'addLiquidity' && ...}]: React renders
    [false] as nothing. *)
Definition label_of (k : string) : jsstring :=
  (if bool_decide (k = "swap") then swap_label else [])
  ++ (if bool_decide (k = "addLiquidity") then addLiquidity_label else []).

(** [None] is the [null] the function returns; the buttons come in the order
    of the entries of the mapping, which the map of the embedding does not
    keep: only what does not depend on that order is stated of them. *)
Definition renderFunctionButtons (functions : option (gmap string jsstring))
    : option (list FunctionButton) :=
  match functions with
  | None => None
  | Some f =>
      Some ((fun entry : string * jsstring =>
               {| button_key := entry.1;
                  label := label_of entry.1;
                  onClick := RunHandleSwap |})
            <$> map_to_list f)
  end.
End ChatView.

(** ** The send handler around its [await] *)

Module ChatAsync.
Import ChatApi ChatPage.

(** [sendMessage] up to its [await]: the user message is appended and the
    request goes out. *)
Definition sendMessage_before (userId message : jsstring) (now : jsstring)
    : M unit :=
  let userMessage :=
    {| role := user; content := message;
       timestamp := Some now; functions := None |} in
  appendMessage userMessage;;
  emit (CallSendMessage userId message).

(** [sendMessage] from its [await] on. It runs when the request settles, on
    the state the page has by then: other handlers may have run since the
    request went out. *)
Definition sendMessage_after (reply : settled Message) : M unit :=
  answer ← await reply;
  appendMessage answer.

(** [handleSendMessage] up to the [await] inside [sendMessage]. *)
Definition handleSendMessage_before (user : option jsstring) (now : jsstring)
    : M unit :=
  s ← get;
  let input := input s in
  if negb (truthy (trim input)) then mret tt
  else
    match user with
    | Some u =>
        if truthy u
        then setInput [];; sendMessage_before u input now
        else mret tt
    | None => mret tt
    end.
End ChatAsync.

(** ** The life of the survey modal *)

Module SurveyFlow.
Import SurveyApi SurveyModal.

(** [form.resetFields()]: no field has an initial value, so the store is
    emptied. *)
Definition resetFields : M unit :=
  modify (fun s =>
    {| loading := loading s; questions := questions s;
       savedAnswers := savedAnswers s; form := ∅;
       summaryModalOpen := summaryModalOpen s;
       summaryData := summaryData s |}).

(** The effect on [open] and [user]. [loadData()] is not awaited, so the
    form is reset while the requests are in flight; [loadData] does not
    touch the form, so the state at the end is the same. *)
Definition openEffect (open : bool) (user : option jsstring)
    (qs : settled (list jsstring)) (ans : settled SurveyAnswersResponse)
    (ans_first : bool) : M unit :=
  if open && truthy_opt user
  then loadData user qs ans ans_first;; resetFields
  else mret tt.

(** [onCancel] and the close button of the result modal. *)
Definition closeSummary : M unit :=
  setSummaryModalOpen false.

(** The [name] of the form item of each question:
    [`question${index + 1}`]. *)
Definition fieldNames (questions : list jsstring) : list string :=
  imap (fun index _ => "question" +:+ pretty (index + 1)) questions.

(** What can happen to the modal. *)
Inductive Action : Type :=
| OpenChanged (open : bool) (user : option jsstring)
    (qs : settled (list jsstring)) (ans : settled SurveyAnswersResponse)
    (ans_first : bool)
| Prefill
| Submit (user : option jsstring) (values : gmap string jsstring)
    (submitted : settled SurveySummaryResponse)
| CloseSummary.

Definition perform (a : Action) : M unit :=
  match a with
  | OpenChanged open user qs ans ans_first =>
      openEffect open user qs ans ans_first
  | Prefill => prefillEffect
  | Submit user values submitted => handleSubmit user values submitted
  | CloseSummary => closeSummary
  end.

Definition perform_all (actions : list Action) (s : State) : State :=
  foldl (fun s a => final (perform a s)) s actions.

(** The rule [required: true] of a form item: the field holds a text that
    is not empty. *)
Definition required_ok (store : gmap string jsstring) (name : string) : bool :=
  truthy_opt (store !! name).

(** What the form hands to [onFinish] when its submit button is pressed:
    the values of the fields it renders, one per question, when each passes
    its rule; [None] when a rule fails, and [onFinish] is then not called. *)
Definition validated (s : State) : option (gmap string jsstring) :=
  let names := fieldNames (questions s) in
  if forallb (required_ok (form s)) names
  then Some (filter (fun entry : string * jsstring => entry.1 ∈ names) (form s))
  else None.

(** A press of the submit button; the button is disabled while loading. *)
Definition submitForm (user : option jsstring)
    (submitted : settled SurveySummaryResponse) : M unit :=
  s ← get;
  if loading s then mret tt
  else
    match validated s with
    | Some values => handleSubmit user values submitted
    | None => mret tt
    end.

(** The names of the five fields the component reads and writes. *)
Definition answerFields : list string :=
  ["question1"; "question2"; "question3"; "question4"; "question5"].

(** The summary an action receives from the backend, if any. *)
Definition delivered (a : Action) : option jsstring :=
  match a with
  | Submit (Some u) _ (Resolved response) =>
      if truthy u then Some (summary response) else None
  | _ => None
  end.
End SurveyFlow.

(** ** Sample data *)

Module Samples.
Import ChatApi.

Definition alice : jsstring := lit "alice".

Definition question : Message :=
  {| role := user; content := lit "What is a swap?";
     timestamp := Some (lit "2025-03-01T10:00:00.000Z"); functions := None |}.

Definition answer : Message :=
  {| role := assistant; content := lit "An exchange of one token for another.";
     timestamp := Some (lit "2025-03-01T10:00:05.000Z"); functions := None |}.

Definition follow_up : Message :=
  {| role := user; content := lit "And liquidity?";
     timestamp := Some (lit "2025-03-02T08:30:00.000Z"); functions := None |}.

Definition follow_up_answer : Message :=
  {| role := assistant; content := lit "Tokens deposited in a pool.";
     timestamp := Some (lit "2025-03-02T08:30:07.000Z");
     functions := Some {[ "addLiquidity" := lit "pool" ]} |}.

(** Two entries, newest first, each with its messages newest first. *)
Definition short_page : MessagesResponse :=
  {| entries := [ {| messages := [follow_up_answer; follow_up] |};
                  {| messages := [answer; question] |} ] |}.

(** One entry of 41 messages. *)
Definition long_page : MessagesResponse :=
  {| entries := [ {| messages := replicate 41 question |} ] |}.

(** The [i]-th message of a numbered conversation. *)
Definition numbered (i : nat) : Message :=
  {| role := if Nat.even i then user else assistant;
     content := lit (pretty i); timestamp := None; functions := None |}.

(** A page state whose transcript holds [n] numbered messages. *)
Definition filled (n : nat) : ChatPage.State :=
  {| ChatPage.input := []; ChatPage.page := 1;
     ChatPage.messages := map numbered (seq 0 n);
     ChatPage.isLoading := false |}.

(** A page state with text in the input box. *)
Definition typing (text : jsstring) : ChatPage.State :=
  {| ChatPage.input := text; ChatPage.page := 1;
     ChatPage.messages := [question; answer];
     ChatPage.isLoading := false |}.

Definition network_down : js_error := JsError (lit "Network Error").

Definition server_error : js_error := JsError (lit "500").

(** A survey with its five questions loaded and the form filled in. *)
Definition filled_form : gmap string jsstring :=
  <["question1" := lit "low risk"]>
  (<["question2" := lit "five years"]>
  (<["question3" := lit "10000"]>
  (<["question4" := lit "none"]>
  (<["question5" := lit "savings"]> ∅)))).

Definition answering : SurveyModal.State :=
  {| SurveyModal.loading := false;
     SurveyModal.questions :=
       [lit "Risk?"; lit "Horizon?"; lit "Amount?"; lit "Experience?";
        lit "Goal?"];
     SurveyModal.savedAnswers := None;
     SurveyModal.form := filled_form;
     SurveyModal.summaryModalOpen := false;
     SurveyModal.summaryData := [] |}.

Definition report : SurveyApi.SurveySummaryResponse :=
  {| SurveyApi.summary := lit "# Result" ++ [0x0A]%N ++ lit "Conservative." |}.
End Samples.

(** * Properties *)

(** ** Strings *)

Section Strings.
Implicit Types s : jsstring.

Lemma trim_start_blank s :
  forallb is_white_space s = true → trim_start s = [].
Proof.
  induction s as [|c s IH]; [done|].
  simpl. destruct (is_white_space c); [exact IH | discriminate].
Qed.

Lemma trim_blank s :
  forallb is_white_space s = true → trim s = [].
Proof.
  intros H. unfold trim. by rewrite (trim_start_blank s H).
Qed.

Lemma trim_start_keeps s c s' :
  trim_start s = c :: s' → is_white_space c = false.
Proof.
  induction s as [|d s IH]; [done|].
  simpl. destruct (is_white_space d) eqn:E; [exact IH|].
  by intros [= <- <-].
Qed.

Lemma trim_start_app_visible s c s' :
  is_white_space c = false →
  trim_start (s ++ c :: s') ≠ [].
Proof.
  intros Hc. induction s as [|d s IH]; simpl.
  - by rewrite Hc.
  - by destruct (is_white_space d).
Qed.

(** The guard [!input.trim()] holds exactly for blank strings. *)
Lemma trim_empty_iff s :
  trim s = [] ↔ forallb is_white_space s = true.
Proof.
  split; [|apply trim_blank].
  induction s as [|c s IH]; [done|].
  unfold trim in *. simpl.
  destruct (is_white_space c) eqn:E; [exact IH|].
  unfold trim_end. intros H.
  apply (f_equal (@rev N)) in H. rewrite rev_involutive in H.
  change (rev (c :: s)) with (rev s ++ [c]) in H.
  by apply (trim_start_app_visible (rev s) c []) in H.
Qed.
End Strings.

(** ** The transcript window *)

Module ChatFacts.
Import ChatApi ChatPage.

Implicit Types (prev : list Message) (message : Message) (s : State).

Lemma shift_twice {A} (l : list A) : shift (shift l) = drop 2 l.
Proof. by destruct l as [|? [|? ?]]. Qed.

Lemma appended_below prev message :
  length prev < capacity → appended message prev = prev ++ [message].
Proof.
  intros H. unfold appended.
  destruct (Nat.leb_spec (messagesPerPage * 2) (length prev)) as [Hge|_];
    [|done].
  unfold capacity in H. lia.
Qed.

Lemma appended_full prev message :
  capacity ≤ length prev → appended message prev = drop 2 prev ++ [message].
Proof.
  intros H. unfold appended.
  destruct (Nat.leb_spec (messagesPerPage * 2) (length prev)) as [_|Hlt].
  - by rewrite shift_twice.
  - unfold capacity in H. lia.
Qed.

(** One append never takes a transcript over the larger of its length and
    the capacity. *)
Lemma appended_length_le prev message n :
  capacity ≤ n → length prev ≤ n → length (appended message prev) ≤ n.
Proof.
  intros Hn Hprev.
  destruct (decide (length prev < capacity)) as [Hlt|Hge].
  - rewrite appended_below by done. rewrite length_app. simpl. lia.
  - rewrite appended_full by lia.
    rewrite length_app, length_drop. simpl.
    unfold capacity, messagesPerPage in *. lia.
Qed.

Lemma flat_map_rev {A B} (f : A → list B) (l : list A) :
  flat_map (fun x => rev (f x)) (rev l) = rev (flat_map f l).
Proof.
  induction l as [|x l IH]; [done|].
  simpl. rewrite flat_map_app, rev_app_distr, IH. simpl.
  by rewrite app_nil_r.
Qed.

Lemma flattened_rev data :
  flattened data = rev (flat_map ChatApi.messages (entries data)).
Proof. apply flat_map_rev. Qed.

Lemma flattened_length data : length (flattened data) = held data.
Proof. by rewrite flattened_rev, length_rev. Qed.

(** What each handler does to the transcript. *)
Lemma loadPage_resolved userId p data s :
  loadPage userId p (Resolved data) s
  = Run {| input := input s; page := page s;
           messages := flattened data; isLoading := false |}
        [CallMessages userId p] (Returned tt).
Proof. reflexivity. Qed.

Lemma loadPage_rejected userId p e s :
  loadPage userId p (Rejected e) s
  = Run {| input := input s; page := page s;
           messages := messages s; isLoading := true |}
        [CallMessages userId p] (Threw e).
Proof. reflexivity. Qed.

Lemma appendMessage_run message s :
  appendMessage message s
  = Run {| input := input s; page := page s;
           messages := appended message (messages s);
           isLoading := isLoading s |}
        [] (Returned tt).
Proof. reflexivity. Qed.

Lemma sendMessage_messages userId text now reply s :
  messages (final (sendMessage userId text now reply s))
  = let userMessage :=
      {| role := user; content := text;
         timestamp := Some now; functions := None |} in
    match reply with
    | Resolved answer => appended answer (appended userMessage (messages s))
    | Rejected _ => appended userMessage (messages s)
    end.
Proof. by destruct reply. Qed.

(** Every action keeps the transcript within [n], when the history page it
    loads (if any) does. *)
Lemma perform_length_le a s n :
  capacity ≤ n →
  length (messages s) ≤ n →
  (∀ data, loaded a = Some data → held data ≤ n) →
  length (messages (final (perform a s))) ≤ n.
Proof.
  intros Hn Hs Hok. destruct a as [u fetched|v|u now reply|now|m]; simpl.
  - unfold initialLoadEffect.
    destruct u as [u|]; [|exact Hs].
    change (length (messages (final
      ((if truthy u && (length (messages s) =? 0)
        then loadPage u (page s) fetched else mret tt) s))) ≤ n).
    destruct (truthy u && (length (messages s) =? 0)); [|exact Hs].
    destruct fetched as [data|e].
    + rewrite loadPage_resolved. simpl. rewrite flattened_length.
      by apply Hok.
    + rewrite loadPage_rejected. exact Hs.
  - exact Hs.
  - unfold handleSendMessage.
    change (length (messages (final
      ((if negb (truthy (trim (input s))) then mret tt
        else match u with
             | Some u' =>
                 if truthy u'
                 then setInput [];; sendMessage u' (input s) now reply
                 else mret tt
             | None => mret tt
             end) s))) ≤ n).
    destruct (negb (truthy (trim (input s)))); [exact Hs|].
    destruct u as [u'|]; [|exact Hs].
    destruct (truthy u'); [|exact Hs].
    destruct reply as [answer|e]; simpl;
      repeat apply appended_length_le; done.
  - by apply appended_length_le.
  - by apply appended_length_le.
Qed.

Lemma reachable_length_le (ok : MessagesResponse → Prop) n s :
  capacity ≤ n →
  (∀ data, ok data → held data ≤ n) →
  reachable ok s → length (messages s) ≤ n.
Proof.
  intros Hn Hok Hs. induction Hs as [|s a _ IH Ha].
  - simpl. lia.
  - apply perform_length_le; [done..|].
    intros data Hd. by apply Hok, Ha.
Qed.

(** C1, as the spec states it, fails: [loadPage] stores whatever the history
    page holds, and a page of 41 messages seeds a transcript over the
    capacity of 40. *)
Lemma long_page_exceeds_capacity :
  let s := final (perform (InitialLoad (Some Samples.alice)
                             (Resolved Samples.long_page)) initial) in
  reachable (fun _ => True) s ∧
  length (messages s) = 41 ∧
  ¬ length (messages s) ≤ capacity.
Proof.
  split; [|split].
  - by apply reachable_perform; [apply reachable_initial|].
  - reflexivity.
  - vm_compute. lia.
Qed.

(** C1 (amended): in every state the chat page reaches while each history
    page it loads holds at most [2 * messagesPerPage] messages, the
    transcript holds at most [2 * messagesPerPage] messages. *)
Theorem transcript_within_capacity s :
  reachable (fun data => held data ≤ capacity) s →
  length (messages s) ≤ capacity.
Proof.
  apply reachable_length_le; [done|]. by intros data Hd.
Qed.

Lemma transcript_within_capacity_witness :
  length (messages
    (perform_all [InitialLoad (Some Samples.alice) (Resolved Samples.short_page);
                  Change (lit "hello");
                  Send (Some Samples.alice) (lit "2025-03-03T09:00:00.000Z")
                       (Resolved Samples.answer)]
                 initial)) ≤ capacity.
Proof.
  apply transcript_within_capacity. cbv [perform_all foldl].
  repeat (apply reachable_perform; [|intros data [= <-]; vm_compute; lia]).
  apply reachable_initial.
Defined.

Lemma appended_pair_full prev question answer :
  length prev = capacity →
  appended answer (appended question prev) = drop 2 prev ++ [question; answer].
Proof.
  intros Hlen. rewrite (appended_full prev question) by lia.
  rewrite appended_below.
  - by rewrite <- app_assoc.
  - rewrite length_app, length_drop, Hlen. vm_compute. lia.
Qed.

(** C2: on a transcript of at least [2 * messagesPerPage] entries
    [appendMessage] drops the two oldest entries and pushes the new message;
    from exactly 40 entries, a user message and then an assistant message
    leave 40 entries: the old ones without the two oldest, in their order,
    then the two new ones. *)
Theorem appendMessage_evicts_two_oldest s :
  capacity ≤ length (messages s) →
  (∀ message,
     messages (final (appendMessage message s))
     = drop 2 (messages s) ++ [message]) ∧
  (length (messages s) = capacity →
   ∀ question answer,
     let s' := final ((appendMessage question;; appendMessage answer) s) in
     messages s' = drop 2 (messages s) ++ [question; answer] ∧
     length (messages s') = capacity).
Proof.
  intros Hfull. split.
  - intros message. rewrite appendMessage_run. simpl.
    by apply appended_full.
  - intros Hlen question answer. simpl.
    rewrite (appended_pair_full _ question answer Hlen). split; [done|].
    rewrite length_app, length_drop, Hlen. by vm_compute.
Qed.

Lemma appendMessage_evicts_two_oldest_witness :
  let s := Samples.filled 40 in
  let s' := final ((appendMessage Samples.question;;
                    appendMessage Samples.answer) s) in
  messages s' = drop 2 (messages s) ++ [Samples.question; Samples.answer] ∧
  length (messages s') = capacity.
Proof.
  intros s s'.
  assert (Hfull : capacity ≤ length (messages s)) by (vm_compute; lia).
  apply (proj2 (appendMessage_evicts_two_oldest s Hfull)).
  reflexivity.
Defined.

(** The round trip of [sendMessage] on a full transcript, as a corollary. *)
Lemma sendMessage_slides_window userId text now answer s :
  length (messages s) = capacity →
  messages (final (sendMessage userId text now (Resolved answer) s))
  = drop 2 (messages s)
    ++ [ {| role := user; content := text;
            timestamp := Some now; functions := None |}; answer ].
Proof.
  intros Hlen. rewrite sendMessage_messages. simpl.
  by apply appended_pair_full.
Qed.

Lemma StronglySorted_rev {A} (R : relation A) (l : list A) :
  StronglySorted (flip R) l → StronglySorted R (rev l).
Proof.
  induction 1 as [|x l _ IH Hx]; simpl; [constructor|].
  apply StronglySorted_app_2; [|done|repeat constructor].
  intros y z Hy Hz. apply list_elem_of_singleton in Hz as ->.
  rewrite Forall_forall in Hx. apply Hx.
  apply list_elem_of_In. apply list_elem_of_In, in_rev in Hy. done.
Qed.

Lemma page_newest_first_received (older : relation Message) data :
  page_newest_first older data → newest_first older (received data).
Proof.
  unfold page_newest_first, newest_first, received.
  intros [Hin Hacross].
  induction Hacross as [|e es _ IH He]; simpl; [constructor|].
  apply Forall_cons in Hin as [Hin_e Hin_es].
  apply StronglySorted_app_2; [|exact Hin_e|by apply IH].
  intros m1 m2 Hm1 Hm2.
  apply list_elem_of_In, in_flat_map in Hm2 as (e2 & He2 & Hm2).
  apply list_elem_of_In in He2, Hm2.
  rewrite Forall_forall in He. specialize (He e2 He2).
  unfold entry_newer in He. rewrite Forall_forall in He.
  specialize (He m1 Hm1). rewrite Forall_forall in He. by apply He.
Qed.

(** C3: [loadPage] seeds the transcript with
    [data.entries.reverse().flatMap(entry => entry.messages.reverse())],
    which is the reversal of the messages as received; when the entries are
    ordered newest first and so are the messages within each entry, the
    seeded transcript is in chronological order. *)
Theorem loadPage_seeds_chronological userId p data s :
  let s' := final (loadPage userId p (Resolved data) s) in
  messages s'
  = flat_map (fun entry => rev (ChatApi.messages entry)) (rev (entries data)) ∧
  messages s' = rev (received data) ∧
  ∀ older : relation Message,
    page_newest_first older data → chronological older (messages s').
Proof.
  simpl. split; [done|]. split; [apply flattened_rev|].
  intros older Hnew. rewrite flattened_rev.
  by apply StronglySorted_rev, page_newest_first_received.
Qed.

Lemma loadPage_seeds_chronological_witness :
  page_newest_first earlier Samples.short_page ∧
  chronological earlier
    (messages (final (loadPage Samples.alice 1 (Resolved Samples.short_page)
                        initial))).
Proof.
  assert (H : page_newest_first earlier Samples.short_page).
  { split; repeat constructor. }
  split; [exact H|].
  apply (loadPage_seeds_chronological Samples.alice 1 Samples.short_page initial).
  exact H.
Defined.

(** C7: on an input that is empty or all white space the send handler does
    nothing: it issues no request and leaves the transcript, the input and
    the rest of the state as they are. *)
Theorem handleSendMessage_blank_input user now reply s :
  forallb is_white_space (input s) = true →
  handleSendMessage user now reply s = Run s [] (Returned tt).
Proof.
  intros Hblank. unfold handleSendMessage, mbind, M_bind, bind. simpl.
  by rewrite (trim_blank _ Hblank).
Qed.

Lemma handleSendMessage_blank_input_witness :
  handleSendMessage (Some Samples.alice) (lit "2025-03-03T09:00:00.000Z")
    (Resolved Samples.answer) (Samples.typing [0x20; 0x09; 0xA0; 0x0A]%N)
  = Run (Samples.typing [0x20; 0x09; 0xA0; 0x0A]%N) [] (Returned tt).
Proof.
  apply handleSendMessage_blank_input. reflexivity.
Defined.

(** The message [sendMessage] builds from the text. *)
Lemma handleSendMessage_visible_input u now reply s :
  truthy u = true →
  trim (input s) ≠ [] →
  let userMessage :=
    {| role := user; content := input s;
       timestamp := Some now; functions := None |} in
  handleSendMessage (Some u) now reply s
  = match reply with
    | Resolved answer =>
        Run {| input := []; page := page s;
               messages := appended answer (appended userMessage (messages s));
               isLoading := isLoading s |}
            [CallSendMessage u (input s)] (Returned tt)
    | Rejected e =>
        Run {| input := []; page := page s;
               messages := appended userMessage (messages s);
               isLoading := isLoading s |}
            [CallSendMessage u (input s)] (Threw e)
    end.
Proof.
  intros Hu Hvis. unfold handleSendMessage, mbind, M_bind, bind. simpl.
  destruct (trim (input s)) as [|c t]; [done|]. simpl. rewrite Hu.
  by destruct reply.
Qed.

Lemma appended_last prev message : last (appended message prev) = Some message.
Proof. unfold appended. apply last_snoc. Qed.

(** C9: when the reply request rejects after a visible input was sent, the
    user message appended before the request stays in the transcript and the
    input stays cleared; the rejection leaves the handler uncaught. *)
Theorem handleSendMessage_rejected_reply u now e s :
  truthy u = true →
  trim (input s) ≠ [] →
  let userMessage :=
    {| role := user; content := input s;
       timestamp := Some now; functions := None |} in
  let r := handleSendMessage (Some u) now (Rejected e) s in
  final r = {| input := []; page := page s;
               messages := appended userMessage (messages s);
               isLoading := isLoading s |} ∧
  last (messages (final r)) = Some userMessage ∧
  trace r = [CallSendMessage u (input s)] ∧
  result r = Threw e.
Proof.
  intros Hu Hvis userMessage r. subst r.
  rewrite (handleSendMessage_visible_input u now (Rejected e) s Hu Hvis).
  simpl. split; [done|]. split; [apply appended_last|done].
Qed.

Lemma handleSendMessage_rejected_reply_witness :
  let s := Samples.typing (lit " hello ") in
  let r := handleSendMessage (Some Samples.alice)
             (lit "2025-03-03T09:00:00.000Z")
             (Rejected Samples.network_down) s in
  input (final r) = [] ∧
  messages (final r)
  = [Samples.question; Samples.answer;
     {| role := user; content := lit " hello ";
        timestamp := Some (lit "2025-03-03T09:00:00.000Z");
        functions := None |}] ∧
  result r = Threw Samples.network_down.
Proof.
  intros s r.
  destruct (handleSendMessage_rejected_reply Samples.alice
              (lit "2025-03-03T09:00:00.000Z") Samples.network_down s)
    as (Hfinal & _ & _ & Hres).
  - reflexivity.
  - vm_compute. discriminate.
  - fold r in Hfinal, Hres. rewrite Hfinal. split; [reflexivity|].
    split; [reflexivity|exact Hres].
Defined.





End ChatFacts.

(** ** The survey *)

Module SurveyFacts.
Import SurveyApi SurveyModal.

Implicit Types (s : State) (v : FormValues) (answers : list jsstring).

(** The property names [question1] .. [question5] select the five fields. *)
Lemma field_spec v n :
  1 ≤ n ≤ 5 →
  field v n
  = Some (match n with
          | 1 => question1 v
          | 2 => question2 v
          | 3 => question3 v
          | 4 => question4 v
          | _ => question5 v
          end).
Proof.
  intros [H1 H5].
  destruct n as [|n]; [lia|].
  do 5 (destruct n as [|n]; [by vm_compute|]). lia.
Qed.

(** [answers[i] || ''] is the answer at [i], or the empty string when there
    is none. *)
Lemma js_or_lookup answers i :
  js_or (answers !! i) [] = default [] (answers !! i).
Proof. destruct (answers !! i) as [[|c a]|]; reflexivity. Qed.

Lemma mapAnswersToFormValues_field answers n :
  1 ≤ n ≤ 5 →
  field (mapAnswersToFormValues answers) n
  = Some (default [] (answers !! (n - 1))).
Proof.
  intros Hn. rewrite (field_spec _ n Hn). f_equal.
  destruct Hn as [H1 H5].
  destruct n as [|n]; [lia|].
  do 5 (destruct n as [|n]; [apply js_or_lookup|]). lia.
Qed.

(** The object [mapAnswersToFormValues] returns for saved answers of length
    [k ≤ 5]: its property [questionN] is the answer at position [N] when
    [N ≤ k], and the empty string when [k < N ≤ 5]. *)
Theorem mapAnswersToFormValues_prefill answers k n :
  length answers = k →
  k ≤ 5 →
  1 ≤ n ≤ 5 →
  (n ≤ k →
     is_Some (answers !! (n - 1)) ∧
     field (mapAnswersToFormValues answers) n = answers !! (n - 1)) ∧
  (k < n → field (mapAnswersToFormValues answers) n = Some []).
Proof.
  intros Hlen Hk Hn. rewrite (mapAnswersToFormValues_field answers n Hn).
  split.
  - intros Hle.
    assert (Hsome : is_Some (answers !! (n - 1)))
      by (apply lookup_lt_is_Some; lia).
    split; [done|]. by destruct Hsome as [a ->].
  - intros Hgt. rewrite lookup_ge_None_2 by lia. done.
Qed.

Lemma mapAnswersToFormValues_prefill_witness :
  field (mapAnswersToFormValues [lit "low risk"; lit "five years"]) 2
  = Some (lit "five years") ∧
  field (mapAnswersToFormValues [lit "low risk"; lit "five years"]) 3
  = Some [].
Proof.
  split.
  - apply (mapAnswersToFormValues_prefill
             [lit "low risk"; lit "five years"] 2 2); [reflexivity|lia..].
  - apply (mapAnswersToFormValues_prefill
             [lit "low risk"; lit "five years"] 2 3); [reflexivity|lia..].
Defined.

(** The effect stores these values in the form, once the questions are
    there. *)
Lemma prefillEffect_fills_form s saved n :
  savedAnswers s = Some saved →
  questions s ≠ [] →
  1 ≤ n ≤ 5 →
  form (final (prefillEffect s)) !! ("question" +:+ pretty n)
  = Some (default [] (answers saved !! (n - 1))).
Proof.
  intros Hsaved Hq Hn.
  unfold prefillEffect, mbind, M_bind, bind. simpl. rewrite Hsaved.
  destruct (questions s) as [|q qs]; [done|]. simpl.
  rewrite <- (mapAnswersToFormValues_field (answers saved) n Hn).
  unfold field.
  destruct (properties (mapAnswersToFormValues (answers saved))
              !! ("question" +:+ pretty n)) as [a|] eqn:E.
  - by apply lookup_union_Some_l.
  - rewrite <- E. unfold field in *.
    pose proof (mapAnswersToFormValues_field (answers saved) n Hn) as H.
    unfold field in H. congruence.
Qed.

Lemma prefillEffect_waits s :
  savedAnswers s = None ∨ questions s = [] →
  prefillEffect s = Run s [] (Returned tt).
Proof.
  unfold prefillEffect, mbind, M_bind, bind. simpl.
  intros [->|Hq]; [done|]. rewrite Hq. by destruct (savedAnswers s).
Qed.

(** C6: the pre-fill of the form, the effect that calls
    [form.setFieldsValue(mapAnswersToFormValues(savedAnswers.answers))] once
    the saved answers are fetched and the questions are there: for saved
    answers of length [k ≤ 5] it sets the form field [questionN] to the
    answer at position [N] when [N ≤ k], and to the empty string when
    [k < N ≤ 5]. *)
Theorem prefill_sets_form_fields s saved k n :
  savedAnswers s = Some saved →
  questions s ≠ [] →
  length (answers saved) = k →
  k ≤ 5 →
  1 ≤ n ≤ 5 →
  let filled := form (final (prefillEffect s)) in
  filled !! ("question" +:+ pretty n)
  = field (mapAnswersToFormValues (answers saved)) n ∧
  (n ≤ k →
     is_Some (answers saved !! (n - 1)) ∧
     filled !! ("question" +:+ pretty n) = answers saved !! (n - 1)) ∧
  (k < n → filled !! ("question" +:+ pretty n) = Some []).
Proof.
  intros Hsaved Hq Hlen Hk Hn filled. subst filled.
  rewrite (prefillEffect_fills_form s saved n Hsaved Hq Hn).
  split; [by rewrite mapAnswersToFormValues_field|]. split.
  - intros Hle.
    assert (Hsome : is_Some (answers saved !! (n - 1)))
      by (apply lookup_lt_is_Some; lia).
    split; [done|]. by destruct Hsome as [a ->].
  - intros Hgt. by rewrite lookup_ge_None_2 by lia.
Qed.

Lemma prefill_sets_form_fields_witness :
  let s :=
    {| loading := false; questions := [lit "Risk?"; lit "Horizon?"];
       savedAnswers := Some {| answers := [lit "low risk"; lit "five years"] |};
       form := <["question3" := lit "typed before"]> ∅;
       summaryModalOpen := false; summaryData := [] |} in
  form (final (prefillEffect s)) !! "question2" = Some (lit "five years") ∧
  form (final (prefillEffect s)) !! "question3" = Some [].
Proof.
  intros s. split.
  - apply (prefill_sets_form_fields s
             {| answers := [lit "low risk"; lit "five years"] |} 2 2);
      [reflexivity|discriminate|reflexivity|lia..].
  - apply (prefill_sets_form_fields s
             {| answers := [lit "low risk"; lit "five years"] |} 2 3);
      [reflexivity|discriminate|reflexivity|lia..].
Defined.

(** What the two guarded paths do on each outcome. *)
Lemma loadData_run user qs ans ans_first s :
  loadData user qs ans ans_first s
  = match promise_all qs ans ans_first with
    | Resolved (questionsResponse, answersResponse) =>
        Run {| loading := false; questions := questionsResponse;
               savedAnswers := Some answersResponse; form := form s;
               summaryModalOpen := summaryModalOpen s;
               summaryData := summaryData s |}
            [CallGetQuestions; CallGetAnswers user] (Returned tt)
    | Rejected e =>
        Run (idle s)
            [CallGetQuestions; CallGetAnswers user;
             ConsoleError (lit "Error loading survey data:") e]
            (Returned tt)
    end.
Proof.
  unfold loadData. by destruct (promise_all qs ans ans_first) as [[q a]|e].
Qed.

Lemma handleSubmit_run u values submitted s :
  truthy u = true →
  handleSubmit (Some u) values submitted s
  = match submitted with
    | Resolved response =>
        Run {| loading := false; questions := questions s;
               savedAnswers := savedAnswers s; form := form s;
               summaryModalOpen := true;
               summaryData := summary response |}
            [CallSubmitAnswers (request u values); OnClose] (Returned tt)
    | Rejected e =>
        Run (idle s)
            [CallSubmitAnswers (request u values);
             ConsoleError (lit "Error submitting answers:") e]
            (Returned tt)
    end.
Proof.
  intros Hu. unfold handleSubmit. rewrite Hu. by destruct submitted.
Qed.

Lemma handleSubmit_without_user user values submitted s :
  truthy_opt user = false →
  handleSubmit user values submitted s = Run s [] (Returned tt).
Proof.
  destruct user as [[|c u]|]; [done| |done]. discriminate.
Qed.

(** C4: when the data load or the submission fails, the error is logged,
    the loading flag is cleared, each request went out once, and the rest of
    the state is as before; a failed submission neither calls [onClose] nor
    opens the result modal, and keeps the summary and the form. *)
Theorem survey_failure_logged_and_idle e s :
  (∀ user qs ans ans_first,
     promise_all qs ans ans_first = Rejected e →
     loadData user qs ans ans_first s
     = Run (idle s)
           [CallGetQuestions; CallGetAnswers user;
            ConsoleError (lit "Error loading survey data:") e]
           (Returned tt)) ∧
  (∀ u values,
     truthy u = true →
     let r := handleSubmit (Some u) values (Rejected e) s in
     r = Run (idle s)
             [CallSubmitAnswers (request u values);
              ConsoleError (lit "Error submitting answers:") e]
             (Returned tt) ∧
     (OnClose ∉ trace r) ∧
     summaryModal (final r) = summaryModal s ∧
     summaryData (final r) = summaryData s ∧
     form (final r) = form s ∧
     loading (final r) = false).
Proof.
  split.
  - intros user qs ans ans_first Hrej. rewrite loadData_run. by rewrite Hrej.
  - intros u values Hu r. subst r.
    rewrite (handleSubmit_run u values (Rejected e) s Hu). simpl.
    repeat split. intros Hin.
    apply list_elem_of_In in Hin. simpl in Hin.
    by destruct Hin as [|[|[]]].
Qed.

Lemma survey_failure_logged_and_idle_witness :
  final (loadData (Some Samples.alice) (Resolved [lit "Risk?"])
           (Rejected Samples.server_error) false Samples.answering)
  = Samples.answering ∧
  final (handleSubmit (Some Samples.alice) Samples.filled_form
           (Rejected Samples.server_error) Samples.answering)
  = Samples.answering.
Proof.
  destruct (survey_failure_logged_and_idle Samples.server_error
              Samples.answering) as [Hload Hsubmit].
  split.
  - rewrite (Hload (Some Samples.alice) (Resolved [lit "Risk?"])
               (Rejected Samples.server_error) false); reflexivity.
  - destruct (Hsubmit Samples.alice Samples.filled_form) as [-> _];
      reflexivity.
Defined.

(** C5: the request of a submission takes [user_id] from the user identity
    and [question_N] from the form value [questionN], for N in 1..5, and it
    is the one request the submission sends. *)
Theorem handleSubmit_request_mapping u values (v1 v2 v3 v4 v5 : jsstring)
    submitted s :
  truthy u = true →
  values !! "question1" = Some v1 →
  values !! "question2" = Some v2 →
  values !! "question3" = Some v3 →
  values !! "question4" = Some v4 →
  values !! "question5" = Some v5 →
  submissions (trace (handleSubmit (Some u) values submitted s))
  = [ {| user_id := u;
         question_1 := Some v1; question_2 := Some v2;
         question_3 := Some v3; question_4 := Some v4;
         question_5 := Some v5 |} ].
Proof.
  intros Hu H1 H2 H3 H4 H5. rewrite (handleSubmit_run u values submitted s Hu).
  unfold request. rewrite H1, H2, H3, H4, H5. by destruct submitted.
Qed.

Lemma handleSubmit_request_mapping_witness :
  submissions (trace (handleSubmit (Some Samples.alice) Samples.filled_form
                        (Resolved Samples.report) Samples.answering))
  = [ {| user_id := Samples.alice;
         question_1 := Some (lit "low risk");
         question_2 := Some (lit "five years");
         question_3 := Some (lit "10000");
         question_4 := Some (lit "none");
         question_5 := Some (lit "savings") |} ].
Proof.
  apply handleSubmit_request_mapping; by vm_compute.
Defined.

(** C8: when the submission resolves with [{summary: s}], [handleSubmit]
    stores [s], calls [onClose] and opens the result modal; the modal shows
    [s] as markdown, not the pending indicator, whenever [s] is not empty. *)
Theorem handleSubmit_resolved_shows_summary u values response s :
  truthy u = true →
  let r := handleSubmit (Some u) values (Resolved response) s in
  r = Run {| loading := false; questions := questions s;
             savedAnswers := savedAnswers s; form := form s;
             summaryModalOpen := true;
             summaryData := summary response |}
          [CallSubmitAnswers (request u values); OnClose] (Returned tt) ∧
  (summary response ≠ [] →
   summaryModal (final r) = Some (Markdown (summary response))).
Proof.
  intros Hu r. subst r.
  rewrite (handleSubmit_run u values (Resolved response) s Hu).
  split; [done|]. unfold summaryModal. simpl.
  by destruct (summary response).
Qed.

Lemma handleSubmit_resolved_shows_summary_witness :
  let r := handleSubmit (Some Samples.alice) Samples.filled_form
             (Resolved Samples.report) Samples.answering in
  OnClose ∈ trace r ∧
  summaryModal (final r) = Some (Markdown (summary Samples.report)).
Proof.
  intros r.
  destruct (handleSubmit_resolved_shows_summary Samples.alice
              Samples.filled_form Samples.report Samples.answering)
    as [Hrun Hshow]; [reflexivity|].
  fold r in Hrun, Hshow. split.
  - rewrite Hrun. simpl. apply list_elem_of_In. simpl. auto.
  - apply Hshow. vm_compute. discriminate.
Defined.

(** With an empty summary the open modal shows the pending indicator. *)
Lemma summaryModal_pending s :
  summaryModalOpen s = true → summaryData s = [] →
  summaryModal s = Some Pending.
Proof. unfold summaryModal. by intros -> ->. Qed.
End SurveyFacts.

(** ** More on the chat page *)

Module ChatBehaviour.
Import ChatApi ChatPage ChatView ChatFacts.

Implicit Types (prev : list Message) (message : Message) (s : State).

Lemma appended_length prev message :
  length (appended message prev)
  = if capacity <=? length prev then length prev - 1 else S (length prev).
Proof.
  destruct (Nat.leb_spec capacity (length prev)) as [Hge|Hlt].
  - rewrite appended_full by done. rewrite length_app, length_drop. simpl.
    unfold capacity, messagesPerPage in Hge. lia.
  - rewrite appended_below by done. rewrite length_app. simpl. lia.
Qed.

(** X1: [appendMessage] keeps the order of the transcript and puts the new
    message last; what it removes is a prefix of the old transcript, of two
    entries when the transcript had reached the capacity and of none
    otherwise. *)
Theorem appended_evicts_prefix prev message :
  ∃ evicted,
    evicted ++ appended message prev = prev ++ [message] ∧
    length evicted = (if capacity <=? length prev then 2 else 0).
Proof.
  destruct (Nat.leb_spec capacity (length prev)) as [Hge|Hlt].
  - exists (take 2 prev). rewrite appended_full by done.
    rewrite app_assoc, take_drop. split; [done|].
    apply length_take_le. unfold capacity, messagesPerPage in Hge. lia.
  - exists []. by rewrite appended_below.
Qed.

Lemma window_lengths prev (new : list Message) :
  (length prev = capacity →
   length (foldl (fun t m => appended m t) prev new)
   = if Nat.even (length new) then capacity else capacity - 1) ∧
  (length prev = capacity - 1 →
   length (foldl (fun t m => appended m t) prev new)
   = if Nat.even (length new) then capacity - 1 else capacity).
Proof.
  revert prev. induction new as [|m new IH]; intros prev; [done|].
  change (length (m :: new)) with (S (length new)).
  rewrite Nat.even_succ, <- Nat.negb_even. simpl foldl.
  destruct (IH (appended m prev)) as [IHfull IHless].
  split; intros Hlen.
  - rewrite IHless.
    + by destruct (Nat.even (length new)).
    + rewrite appended_length, Hlen. by vm_compute.
  - rewrite IHfull.
    + by destruct (Nat.even (length new)).
    + rewrite appended_length, Hlen. by vm_compute.
Qed.

(** X2: once the transcript holds exactly [2 * messagesPerPage] entries, its
    length alternates under further appends: one below the capacity after an
    odd number of them, at the capacity after an even number. *)
Theorem full_window_alternates prev (new : list Message) :
  length prev = capacity →
  length (foldl (fun t m => appended m t) prev new)
  = if Nat.even (length new) then capacity else capacity - 1.
Proof. apply window_lengths. Qed.

Lemma full_window_alternates_witness :
  length (foldl (fun t m => appended m t) (messages (Samples.filled 40))
            [Samples.question; Samples.answer; Samples.follow_up])
  = 39.
Proof.
  apply (full_window_alternates (messages (Samples.filled 40))
           [Samples.question; Samples.answer; Samples.follow_up]).
  reflexivity.
Defined.

(** X3: the transcript [loadPage] builds holds every message of the history
    page exactly as often as the page does: none is lost, none repeated. *)
Theorem flattened_keeps_messages data :
  flattened data ≡ₚ received data.
Proof.
  rewrite flattened_rev. symmetry. apply Permutation_rev.
Qed.

Lemma appended_pair_suffix prev first second :
  ∃ old, appended second (appended first prev) = old ++ [first; second].
Proof.
  assert (∃ kept, appended first prev = kept ++ [first]) as [kept ->].
  { unfold appended. eauto. }
  destruct (Nat.leb_spec capacity (length (kept ++ [first]))) as [Hge|Hlt].
  - rewrite appended_full by done. exists (drop 2 kept).
    rewrite length_app in Hge. simpl in Hge.
    unfold capacity, messagesPerPage in Hge.
    rewrite drop_app_le by lia. by rewrite <- app_assoc.
  - rewrite appended_below by done. exists kept. by rewrite <- app_assoc.
Qed.

(** X4: with a user identity, the send handler contacts the backend exactly
    when the input holds a character that is not white space. *)
Theorem handleSendMessage_sends_iff_visible u now reply s :
  truthy u = true →
  trace (handleSendMessage (Some u) now reply s) = []
  ↔ forallb is_white_space (input s) = true.
Proof.
  intros Hu. rewrite <- trim_empty_iff. split.
  - intros Hquiet.
    destruct (decide (trim (input s) = [])) as [|Hvis]; [done|].
    rewrite (handleSendMessage_visible_input u now reply s Hu Hvis) in Hquiet.
    by destruct reply.
  - intros Hblank. apply trim_empty_iff in Hblank.
    unfold handleSendMessage, mbind, M_bind, bind. simpl.
    by rewrite (trim_blank _ Hblank).
Qed.

Lemma handleSendMessage_sends_iff_visible_witness :
  trace (handleSendMessage (Some Samples.alice)
           (lit "2025-03-03T09:00:00.000Z") (Resolved Samples.answer)
           (Samples.typing [0x0A; 0x20]%N))
  = [].
Proof.
  apply (handleSendMessage_sends_iff_visible Samples.alice); reflexivity.
Defined.

Lemma sendMessage_around_await userId text now reply s :
  sendMessage userId text now reply s
  = (ChatAsync.sendMessage_before userId text now;;
     ChatAsync.sendMessage_after reply) s.
Proof. by destruct reply. Qed.

Lemma sendMessage_after_resolved answer (later : State) :
  ChatAsync.sendMessage_after (Resolved answer) later
  = Run {| input := input later; page := page later;
           messages := appended answer (messages later);
           isLoading := isLoading later |}
        [] (Returned tt).
Proof. reflexivity. Qed.

(** X5: the send handler around its [await]. Before it waits it has cleared
    the input, appended the user message last and sent one request carrying
    the input as typed, white space around it included. When the reply
    arrives it is appended last to the transcript of that moment, [later],
    and nothing else changes; if the transcript is still the one the handler
    left, it then ends with the user message and the reply. Run without
    interruption the two halves are [handleSendMessage]. *)
Theorem handleSendMessage_around_await u now answer s (later : State) :
  truthy u = true →
  trim (input s) ≠ [] →
  let userMessage :=
    {| role := user; content := input s;
       timestamp := Some now; functions := None |} in
  let sent := ChatAsync.handleSendMessage_before (Some u) now s in
  let received := ChatAsync.sendMessage_after (Resolved answer) later in
  sent = Run {| input := []; page := page s;
                messages := appended userMessage (messages s);
                isLoading := isLoading s |}
             [CallSendMessage u (input s)] (Returned tt) ∧
  last (messages (final sent)) = Some userMessage ∧
  received = Run {| input := input later; page := page later;
                    messages := appended answer (messages later);
                    isLoading := isLoading later |}
                 [] (Returned tt) ∧
  last (messages (final received)) = Some answer ∧
  (messages later = messages (final sent) →
   ∃ old, messages (final received) = old ++ [userMessage; answer]) ∧
  handleSendMessage (Some u) now (Resolved answer) s
  = Run (final (ChatAsync.sendMessage_after (Resolved answer) (final sent)))
        (trace sent) (Returned tt).
Proof.
  intros Hu Hvis userMessage sent received.
  assert (Hsent : sent
                  = Run {| input := []; page := page s;
                           messages := appended userMessage (messages s);
                           isLoading := isLoading s |}
                        [CallSendMessage u (input s)] (Returned tt)).
  { subst sent. unfold ChatAsync.handleSendMessage_before.
    unfold mbind, M_bind, bind. simpl.
    destruct (trim (input s)) as [|c t]; [done|]. simpl. by rewrite Hu. }
  subst received. rewrite sendMessage_after_resolved, Hsent. simpl.
  split; [done|]. split; [apply appended_last|]. split; [done|].
  split; [apply appended_last|]. split.
  - intros ->. apply appended_pair_suffix.
  - by rewrite (handleSendMessage_visible_input u now (Resolved answer) s Hu Hvis).
Qed.

Lemma handleSendMessage_around_await_witness :
  let s := Samples.typing (lit " hello ") in
  let sent := ChatAsync.handleSendMessage_before (Some Samples.alice)
                (lit "2025-03-03T09:00:00.000Z") s in
  let later := final (appendMessage Samples.follow_up (final sent)) in
  trace sent = [CallSendMessage Samples.alice (lit " hello ")] ∧
  messages (final (ChatAsync.sendMessage_after (Resolved Samples.answer) later))
  = [Samples.question; Samples.answer;
     {| role := user; content := lit " hello ";
        timestamp := Some (lit "2025-03-03T09:00:00.000Z");
        functions := None |};
     Samples.follow_up; Samples.answer].
Proof.
  intros s sent later.
  destruct (handleSendMessage_around_await Samples.alice
              (lit "2025-03-03T09:00:00.000Z") Samples.answer s later)
    as (Hsent & _ & Hreceived & _).
  - reflexivity.
  - vm_compute. discriminate.
  - fold sent in Hsent. rewrite Hsent, Hreceived. split; reflexivity.
Defined.

Lemma handleSendMessage_no_user user now reply s :
  truthy_opt user = false →
  handleSendMessage user now reply s = Run s [] (Returned tt).
Proof.
  intros Hnone. unfold handleSendMessage, mbind, M_bind, bind. simpl.
  destruct (negb (truthy (trim (input s)))); [done|].
  destruct user as [u|]; [|done]. simpl in Hnone. by rewrite Hnone.
Qed.

(** X6: without a user identity ([null], [undefined] or the empty string)
    the send handler does nothing, also on a visible input: no request, and
    the input box keeps its text. *)
Theorem handleSendMessage_without_user user now reply s :
  truthy_opt user = false →
  handleSendMessage user now reply s = Run s [] (Returned tt).
Proof. apply handleSendMessage_no_user. Qed.

Lemma handleSendMessage_without_user_witness :
  handleSendMessage (Some []) (lit "2025-03-03T09:00:00.000Z")
    (Resolved Samples.answer) (Samples.typing (lit "hello"))
  = Run (Samples.typing (lit "hello")) [] (Returned tt).
Proof.
  apply handleSendMessage_without_user. reflexivity.
Defined.

Lemma initialLoadEffect_idle user fetched s :
  truthy_opt user = false ∨ messages s ≠ [] →
  initialLoadEffect user fetched s = Run s [] (Returned tt).
Proof.
  intros Hidle. unfold initialLoadEffect, mbind, M_bind, bind. simpl.
  destruct user as [u|]; [|done].
  destruct Hidle as [Hu|Hm].
  - simpl in Hu. by rewrite Hu.
  - destruct (messages s); [done|]. simpl. by rewrite andb_false_r.
Qed.

(** X7: the history is fetched once: after the effect has loaded a page
    that holds a message, it does nothing when it runs again, whoever the
    user and whatever the backend would answer. *)
Theorem initialLoadEffect_once u data s :
  truthy u = true →
  messages s = [] →
  held data ≠ 0 →
  let r := initialLoadEffect (Some u) (Resolved data) s in
  trace r = [CallMessages u (page s)] ∧
  messages (final r) = flattened data ∧
  isLoading (final r) = false ∧
  ∀ user' fetched',
    initialLoadEffect user' fetched' (final r) = Run (final r) [] (Returned tt).
Proof.
  intros Hu Hempty Hheld r.
  assert (Hr : r = Run {| input := input s; page := page s;
                          messages := flattened data; isLoading := false |}
                       [CallMessages u (page s)] (Returned tt)).
  { subst r. unfold initialLoadEffect, mbind, M_bind, bind. simpl.
    by rewrite Hu, Hempty. }
  rewrite Hr. simpl. repeat split.
  intros user' fetched'. apply initialLoadEffect_idle. right. simpl.
  intros Hnil. apply Hheld. rewrite <- flattened_length. by rewrite Hnil.
Qed.

Lemma initialLoadEffect_once_witness :
  let s1 := final (initialLoadEffect (Some Samples.alice)
                     (Resolved Samples.short_page) initial) in
  initialLoadEffect (Some Samples.alice) (Resolved Samples.long_page) s1
  = Run s1 [] (Returned tt).
Proof.
  intros s1.
  apply (initialLoadEffect_once Samples.alice Samples.short_page initial);
    [reflexivity|reflexivity|by vm_compute].
Defined.

Lemma perform_page a s : page (final (perform a s)) = page s.
Proof.
  destruct a as [u fetched|v|u now reply|now|m]; simpl; try done.
  - unfold initialLoadEffect, mbind, M_bind, bind. simpl.
    destruct u as [u|]; [|done].
    destruct (truthy u && (length (messages s) =? 0)); [|done].
    by destruct fetched.
  - unfold handleSendMessage, mbind, M_bind, bind. simpl.
    destruct (negb (truthy (trim (input s)))); [done|].
    destruct u as [u|]; [|done]. destruct (truthy u); [|done].
    by destruct reply.
Qed.

Lemma perform_requested_pages a s :
  Forall (fun p => p = page s) (requested_pages (trace (perform a s))).
Proof.
  destruct a as [u fetched|v|u now reply|now|m]; simpl; try by constructor.
  - unfold initialLoadEffect, mbind, M_bind, bind. simpl.
    destruct u as [u|]; [|by constructor].
    destruct (truthy u && (length (messages s) =? 0)); [|by constructor].
    destruct fetched; simpl; by repeat constructor.
  - unfold handleSendMessage, mbind, M_bind, bind. simpl.
    destruct (negb (truthy (trim (input s)))); [by constructor|].
    destruct u as [u|]; [|by constructor].
    destruct (truthy u); [|by constructor].
    destruct reply; simpl; by constructor.
Qed.

(** X8: the page number never changes: in every state the chat page
    reaches it is 1, and every history request the page sends asks for
    page 1. *)
Theorem history_requests_page_one s :
  reachable (fun _ => True) s →
  page s = 1 ∧
  ∀ a, Forall (fun p => p = 1) (requested_pages (trace (perform a s))).
Proof.
  intros Hs.
  assert (Hpage : page s = 1).
  { induction Hs as [|s a _ IH _]; [done|]. by rewrite perform_page. }
  split; [done|]. intros a. rewrite <- Hpage. apply perform_requested_pages.
Qed.

Lemma history_requests_page_one_witness :
  let s := final (perform (Recommend (lit "2025-03-03T09:00:00.000Z"))
                    initial) in
  page s = 1 ∧
  requested_pages
    (trace (perform (InitialLoad (Some Samples.alice)
                       (Resolved Samples.short_page)) initial))
  = [1].
Proof.
  split.
  - apply history_requests_page_one.
    by apply reachable_perform; [apply reachable_initial|].
  - reflexivity.
Defined.

(** X9: the recommendations shortcut never contacts the backend. The click
    appends the canned user request last and returns; the timer, 2500 ms
    later, appends the mock answer last to the transcript of that moment,
    [later]; neither sends a request, throws, or touches the input, the
    page number and the loading flag. If the transcript is still the one
    the click left, it then ends with the canned request and the mock
    answer. *)
Theorem recommendations_never_call_backend now mockInvestMessage s
    (later : State) :
  let canned :=
    {| role := user; content := investRequest;
       timestamp := Some now; functions := None |} in
  let click := handleInvestRecommendations now s in
  let timer := investTimeout mockInvestMessage later in
  click = Run {| input := input s; page := page s;
                 messages := appended canned (messages s);
                 isLoading := isLoading s |}
              [] (Returned tt) ∧
  timer = Run {| input := input later; page := page later;
                 messages := appended mockInvestMessage (messages later);
                 isLoading := isLoading later |}
              [] (Returned tt) ∧
  last (messages (final click)) = Some canned ∧
  last (messages (final timer)) = Some mockInvestMessage ∧
  (messages later = messages (final click) →
   ∃ old, messages (final timer) = old ++ [canned; mockInvestMessage]).
Proof.
  simpl. split; [done|]. split; [done|].
  split; [apply appended_last|]. split; [apply appended_last|].
  intros ->. apply appended_pair_suffix.
Qed.

Lemma recommendations_never_call_backend_witness :
  let click := handleInvestRecommendations (lit "2025-03-03T09:00:00.000Z")
                 (Samples.typing []) in
  ∃ old,
    messages (final (investTimeout Samples.follow_up_answer (final click)))
    = old ++ [ {| role := user; content := investRequest;
                  timestamp := Some (lit "2025-03-03T09:00:00.000Z");
                  functions := None |};
               Samples.follow_up_answer ].
Proof.
  intros click.
  apply (recommendations_never_call_backend (lit "2025-03-03T09:00:00.000Z")
           Samples.follow_up_answer (Samples.typing []) (final click)).
  reflexivity.
Defined.

Lemma handleSendMessage_blank user now reply s :
  forallb is_white_space (input s) = true →
  handleSendMessage user now reply s = Run s [] (Returned tt).
Proof.
  intros Hblank. unfold handleSendMessage, mbind, M_bind, bind. simpl.
  by rewrite (trim_blank _ Hblank).
Qed.

(** X10: a key press reaches the backend only when it is Enter without
    Shift, the input holds a visible character and there is a user
    identity; the default action of the key is prevented exactly on Enter
    without Shift. *)
Theorem handleKeyDown_sends_only_on_enter e user now reply s :
  let k := handleKeyDown e user now reply s in
  (defaultPrevented k = true ↔ key e = lit "Enter" ∧ shiftKey e = false) ∧
  (trace (started k) ≠ [] →
   key e = lit "Enter" ∧ shiftKey e = false ∧
   truthy_opt user = true ∧ trim (input s) ≠ []) ∧
  (defaultPrevented k = false → started k = Run s [] (Returned tt)).
Proof.
  unfold handleKeyDown.
  destruct (bool_decide_reflect (key e = lit "Enter")) as [Hkey|Hkey];
    destruct (shiftKey e) eqn:Hshift;
    cbn [andb negb defaultPrevented started trace];
    try (split; [split; [done|by intros [? ?]]|split; [done|done]]).
  split; [done|]. split; [|done].
  intros Hsent. repeat split; try done.
  - destruct (truthy_opt user) eqn:Hu; [done|].
    by rewrite handleSendMessage_no_user in Hsent.
  - intros Hblank. apply trim_empty_iff in Hblank.
    by rewrite handleSendMessage_blank in Hsent.
Qed.

Lemma handleKeyDown_sends_only_on_enter_witness :
  trim (ChatPage.input (Samples.typing (lit "hello"))) ≠ [].
Proof.
  apply (handleKeyDown_sends_only_on_enter
           {| key := lit "Enter"; shiftKey := false |}
           (Some Samples.alice) (lit "2025-03-03T09:00:00.000Z")
           (Resolved Samples.answer) (Samples.typing (lit "hello"))).
  vm_compute. discriminate.
Defined.

(** X11: [handleSwap] reports success whatever the wallet does: a rejected
    swap gives the same single success notification as a completed one, no
    error is ever shown, and nothing is thrown or changed in the page. *)
Theorem handleSwap_always_reports_success swapped s :
  handleSwap swapped s
  = Run s [CallSwapHardcode;
           NotifySuccess success_title success_text (lit "topRight")]
        (Returned tt).
Proof. by destruct swapped as [[]|e]. Qed.
Lemma label_of_empty k :
  label_of k = [] ↔ k ≠ "swap" ∧ k ≠ "addLiquidity".
Proof.
  unfold label_of.
  destruct (bool_decide_reflect (k = "swap")) as [->|Hswap].
  - split; [discriminate|]. by intros [? _].
  - destruct (bool_decide_reflect (k = "addLiquidity")) as [->|Hadd].
    + split; [discriminate|]. by intros [_ ?].
    + done.
Qed.

(** X12: a message without functions gets no buttons; otherwise there is
    one button per function name, each name once, every button runs the
    swap, and a button has a label only for [swap] and [addLiquidity]. *)
Theorem renderFunctionButtons_buttons :
  renderFunctionButtons None = None ∧
  ∀ f : gmap string jsstring,
    ∃ buttons,
      renderFunctionButtons (Some f) = Some buttons ∧
      length buttons = size f ∧
      NoDup (button_key <$> buttons) ∧
      (∀ k, k ∈ (button_key <$> buttons) ↔ is_Some (f !! k)) ∧
      Forall (fun b =>
                onClick b = RunHandleSwap ∧
                (label b = [] ↔
                 button_key b ≠ "swap" ∧ button_key b ≠ "addLiquidity"))
             buttons.
Proof.
  split; [done|]. intros f. eexists. split; [reflexivity|].
  rewrite <- list_fmap_compose.
  change (button_key ∘ _) with (@fst string jsstring).
  split; [by rewrite length_fmap, length_map_to_list|].
  split; [apply NoDup_fst_map_to_list|].
  split.
  - intros k. rewrite list_elem_of_fmap. split.
    + intros ([k' x] & -> & Hin). apply elem_of_map_to_list in Hin. eauto.
    + intros [x Hx]. exists (k, x). split; [done|].
      by apply elem_of_map_to_list.
  - apply Forall_fmap, Forall_forall. intros [k x] _. simpl.
    split; [done|apply label_of_empty].
Qed.
End ChatBehaviour.

(** ** More on the survey *)

Module SurveyBehaviour.
Import SurveyApi SurveyModal SurveyFlow SurveyFacts.

Implicit Types (s : State) (answers : list jsstring).

Lemma loadData_settles user qs ans ans_first s :
  result (loadData user qs ans ans_first s) = Returned tt ∧
  loading (final (loadData user qs ans ans_first s)) = false ∧
  form (final (loadData user qs ans ans_first s)) = form s ∧
  summaryModalOpen (final (loadData user qs ans ans_first s))
  = summaryModalOpen s ∧
  summaryData (final (loadData user qs ans ans_first s)) = summaryData s.
Proof.
  rewrite loadData_run.
  by destruct (promise_all qs ans ans_first) as [[q a]|e].
Qed.

Lemma openEffect_run open user qs ans ans_first s :
  openEffect open user qs ans ans_first s
  = if open && truthy_opt user
    then
      let r := loadData user qs ans ans_first s in
      Run {| loading := false; questions := questions (final r);
             savedAnswers := savedAnswers (final r); form := ∅;
             summaryModalOpen := summaryModalOpen s;
             summaryData := summaryData s |}
          (trace r) (Returned tt)
    else Run s [] (Returned tt).
Proof.
  unfold openEffect. destruct (open && truthy_opt user); [|done].
  unfold mbind, M_bind, bind. rewrite loadData_run.
  destruct (promise_all qs ans ans_first) as [[q a]|e]; simpl;
    by rewrite ?app_nil_r.
Qed.

Lemma handleSubmit_cases user values submitted s :
  handleSubmit user values submitted s = Run s [] (Returned tt) ∨
  ∃ u, user = Some u ∧ truthy u = true.
Proof.
  destruct (truthy_opt user) eqn:Hu.
  - right. destruct user as [u|]; [eauto|done].
  - left. by apply handleSubmit_without_user.
Qed.

(** X13: no handler of the survey throws: every failure of the backend is
    caught inside the handler. *)
Theorem survey_handlers_never_throw a s :
  result (perform a s) = Returned tt.
Proof.
  destruct a as [open user qs ans ans_first| |user values submitted|]; simpl.
  - rewrite openEffect_run. by destruct (open && truthy_opt user).
  - unfold prefillEffect, mbind, M_bind, bind. simpl.
    destruct (savedAnswers s); [|done]. by destruct (0 <? length (questions s)).
  - destruct (handleSubmit_cases user values submitted s)
      as [->|(u & -> & Hu)]; [done|].
    rewrite (handleSubmit_run u values submitted s Hu). by destruct submitted.
  - done.
Qed.

Lemma perform_loading a s :
  loading s = false → loading (final (perform a s)) = false.
Proof.
  intros Hs.
  destruct a as [open user qs ans ans_first| |user values submitted|]; simpl.
  - rewrite openEffect_run. by destruct (open && truthy_opt user).
  - unfold prefillEffect, mbind, M_bind, bind. simpl.
    destruct (savedAnswers s); [|done]. by destruct (0 <? length (questions s)).
  - destruct (handleSubmit_cases user values submitted s)
      as [->|(u & -> & Hu)]; [done|].
    rewrite (handleSubmit_run u values submitted s Hu). by destruct submitted.
  - done.
Qed.

(** X14: the survey is never left loading: from a state that is not
    loading, whatever happens and however the backend answers, the state
    after each handler is not loading. *)
Theorem survey_never_left_loading actions s :
  loading s = false → loading (perform_all actions s) = false.
Proof.
  revert s. induction actions as [|a actions IH]; [done|].
  intros s Hs. apply IH. by apply perform_loading.
Qed.

Lemma survey_never_left_loading_witness :
  loading
    (perform_all
       [OpenChanged true (Some Samples.alice) (Resolved [lit "Risk?"])
          (Rejected Samples.server_error) true;
        Submit (Some Samples.alice) Samples.filled_form
          (Rejected Samples.network_down);
        Submit (Some Samples.alice) Samples.filled_form
          (Resolved Samples.report)]
       initial)
  = false.
Proof.
  apply survey_never_left_loading. reflexivity.
Defined.

Lemma perform_summary a s :
  summaryData (final (perform a s)) = default (summaryData s) (delivered a) ∧
  (summaryModalOpen (final (perform a s)) = true →
   summaryModalOpen s = true ∨ is_Some (delivered a)).
Proof.
  destruct a as [open user qs ans ans_first| |user values submitted|]; simpl.
  - rewrite openEffect_run.
    destruct (open && truthy_opt user); simpl; auto.
  - unfold prefillEffect, mbind, M_bind, bind. simpl.
    destruct (savedAnswers s); [|by auto].
    destruct (0 <? length (questions s)); simpl; auto.
  - destruct user as [u|]; [|by auto].
    destruct (truthy u) eqn:Hu.
    + rewrite (handleSubmit_run u values submitted s Hu).
      destruct submitted; simpl; eauto.
    + rewrite handleSubmit_without_user by done.
      destruct submitted; simpl; auto.
  - split; [done|discriminate].
Qed.

Lemma perform_all_snoc actions a s :
  perform_all (actions ++ [a]) s = final (perform a (perform_all actions s)).
Proof. unfold perform_all. by rewrite foldl_snoc. Qed.

(** X15: from its initial state, the modal holds the summary of the latest
    submission that succeeded, and the result modal is on screen only after
    one has: it then shows that summary, or the pending indicator when that
    summary is the empty string. *)
Theorem result_modal_shows_latest_summary actions :
  let s := perform_all actions initial in
  summaryData s = default [] (last (omap delivered actions)) ∧
  (summaryModalOpen s = true →
   ∃ latest,
     last (omap delivered actions) = Some latest ∧
     summaryModal s
     = Some (if truthy latest then Markdown latest else Pending)).
Proof.
  simpl.
  assert (H : summaryData (perform_all actions initial)
              = default [] (last (omap delivered actions)) ∧
              (summaryModalOpen (perform_all actions initial) = true →
               is_Some (last (omap delivered actions)))).
  { induction actions as [|a actions [IHdata IHopen]] using rev_ind.
    - split; [done|discriminate].
    - rewrite perform_all_snoc, omap_app, last_app. simpl.
      destruct (perform_summary a (perform_all actions initial))
        as [Hdata Hopen].
      rewrite Hdata, IHdata. destruct (delivered a) as [d|]; simpl.
      + split; [done|eauto].
      + split; [done|]. intros Hshown.
        destruct (Hopen Hshown) as [Hbefore|[? ?]]; [|done].
        by apply IHopen. }
  destruct H as [Hdata Hopen]. split; [done|].
  intros Hshown. destruct (Hopen Hshown) as [latest Hlatest].
  exists latest. split; [done|].
  unfold summaryModal. rewrite Hshown, Hdata, Hlatest. done.
Qed.

Lemma result_modal_shows_latest_summary_witness :
  summaryModal
    (perform_all
       [Submit (Some Samples.alice) Samples.filled_form
          (Resolved Samples.report);
        Submit (Some Samples.alice) Samples.filled_form
          (Rejected Samples.server_error)]
       initial)
  = Some (Markdown (summary Samples.report)).
Proof.
  destruct (result_modal_shows_latest_summary
              [Submit (Some Samples.alice) Samples.filled_form
                 (Resolved Samples.report);
               Submit (Some Samples.alice) Samples.filled_form
                 (Rejected Samples.server_error)])
    as [_ Hshown].
  destruct Hshown as (latest & Hlatest & ->); [reflexivity|].
  injection Hlatest as <-. reflexivity.
Defined.

(** X16: while the modal is closed, or without a user identity, the effect
    that loads the survey sends no request and changes nothing; the form is
    not reset either. *)
Theorem openEffect_needs_open_and_user open user qs ans ans_first s :
  open = false ∨ truthy_opt user = false →
  openEffect open user qs ans ans_first s = Run s [] (Returned tt).
Proof.
  intros Hidle. rewrite openEffect_run.
  by destruct Hidle as [-> | ->]; rewrite ?andb_false_r.
Qed.

Lemma openEffect_needs_open_and_user_witness :
  openEffect true None (Resolved [lit "Risk?"])
    (Resolved {| answers := [lit "low risk"] |}) false Samples.answering
  = Run Samples.answering [] (Returned tt).
Proof.
  apply openEffect_needs_open_and_user. by right.
Defined.
Lemma open_then_prefill_state u qs saved ans_first s :
  truthy u = true →
  qs ≠ [] →
  perform_all [OpenChanged true (Some u) (Resolved qs) (Resolved saved)
                 ans_first; Prefill] s
  = {| loading := false; questions := qs; savedAnswers := Some saved;
       form := properties (mapAnswersToFormValues (answers saved));
       summaryModalOpen := summaryModalOpen s;
       summaryData := summaryData s |}.
Proof.
  intros Hu Hqs. unfold perform_all. simpl foldl.
  rewrite openEffect_run. simpl. rewrite Hu. simpl.
  unfold prefillEffect, mbind, M_bind, bind. simpl.
  destruct qs as [|q qs]; [done|]. simpl.
  by rewrite (right_id_L ∅ (∪)).
Qed.

(** X17: opening the modal for a user whose questions and saved answers
    both arrive, then filling the form, leaves in the form exactly the five
    fields [mapAnswersToFormValues] builds from the saved answers: what was
    typed before is gone. *)
Theorem open_then_prefill u qs saved ans_first s :
  truthy u = true →
  qs ≠ [] →
  let s1 := perform_all [OpenChanged true (Some u) (Resolved qs)
                           (Resolved saved) ans_first; Prefill] s in
  form s1 = properties (mapAnswersToFormValues (answers saved)) ∧
  questions s1 = qs ∧
  savedAnswers s1 = Some saved ∧
  loading s1 = false.
Proof.
  intros Hu Hqs s1. subst s1.
  by rewrite (open_then_prefill_state u qs saved ans_first s Hu Hqs).
Qed.

Lemma open_then_prefill_witness :
  form (perform_all
          [OpenChanged true (Some Samples.alice)
             (Resolved [lit "Risk?"; lit "Horizon?"])
             (Resolved {| answers := [lit "low risk"] |}) false;
           Prefill]
          Samples.answering)
  = properties (mapAnswersToFormValues [lit "low risk"]).
Proof.
  apply (open_then_prefill Samples.alice [lit "Risk?"; lit "Horizon?"]
           {| answers := [lit "low risk"] |} false Samples.answering);
    [reflexivity|discriminate].
Defined.

Lemma properties_other (v : FormValues) k :
  k ∉ answerFields → properties v !! k = None.
Proof.
  unfold properties, answerFields. rewrite !not_elem_of_cons.
  intros (H1 & H2 & H3 & H4 & H5 & _).
  rewrite !lookup_insert_ne by done. apply lookup_empty.
Qed.

Lemma fieldNames_elem (qs : list jsstring) n :
  ("question" +:+ pretty n) ∈ fieldNames qs ↔ 1 ≤ n ≤ length qs.
Proof.
  unfold fieldNames.
  rewrite (imap_seq_0 qs (fun index => "question" +:+ pretty (index + 1))).
  rewrite list_elem_of_fmap. split.
  - intros (i & Hi & Hin). apply elem_of_seq in Hin.
    apply (inj (String.app "question")) in Hi. apply (inj pretty) in Hi. lia.
  - intros Hn. exists (n - 1). split.
    + by replace (n - 1 + 1) with n by lia.
    + apply elem_of_seq. lia.
Qed.

Lemma fieldNames_inv (qs : list jsstring) name :
  name ∈ fieldNames qs →
  ∃ n, name = "question" +:+ pretty n ∧ 1 ≤ n ≤ length qs.
Proof.
  unfold fieldNames.
  rewrite (imap_seq_0 qs (fun index => "question" +:+ pretty (index + 1))).
  rewrite list_elem_of_fmap. intros (i & -> & Hin).
  apply elem_of_seq in Hin. exists (i + 1). split; [done|lia].
Qed.

(** The store the pre-fill leaves, read at the name of a question. *)
Lemma prefilled_lookup answers n :
  1 ≤ n →
  properties (mapAnswersToFormValues answers) !! ("question" +:+ pretty n)
  = if decide (n ≤ 5) then Some (default [] (answers !! (n - 1))) else None.
Proof.
  intros Hn. destruct (decide (n ≤ 5)) as [Hle|Hgt].
  - by apply mapAnswersToFormValues_field.
  - apply properties_other. unfold answerFields.
    rewrite !not_elem_of_cons. repeat split; try apply not_elem_of_nil;
      intros Heq;
      apply (inj (String.app "question") (pretty n)) in Heq;
      [change "1" with (pretty 1) in Heq
      |change "2" with (pretty 2) in Heq
      |change "3" with (pretty 3) in Heq
      |change "4" with (pretty 4) in Heq
      |change "5" with (pretty 5) in Heq];
      apply (inj pretty) in Heq; lia.
Qed.

Lemma prefilled_required answers (qs : list jsstring) name n :
  name = "question" +:+ pretty n →
  1 ≤ n →
  required_ok (properties (mapAnswersToFormValues answers)) name
  = if decide (n ≤ 5) then truthy (default [] (answers !! (n - 1))) else false.
Proof.
  intros -> Hn. unfold required_ok. rewrite prefilled_lookup by done.
  by destruct (decide (n ≤ 5)).
Qed.

Lemma prefilled_validated answers (qs : list jsstring) :
  forallb (required_ok (properties (mapAnswersToFormValues answers)))
          (fieldNames qs) = true
  ↔ length qs ≤ 5 ∧
    ∀ i, i < length qs → truthy (default [] (answers !! i)) = true.
Proof.
  rewrite forallb_forall. split.
  - intros Hall.
    assert (Hfield : ∀ n, 1 ≤ n ≤ length qs →
              n ≤ 5 ∧ truthy (default [] (answers !! (n - 1))) = true).
    { intros n Hn.
      specialize (Hall ("question" +:+ pretty n)).
      rewrite (prefilled_required answers qs _ n) in Hall by (done || lia).
      destruct (decide (n ≤ 5)) as [Hle|Hgt].
      - split; [done|]. apply Hall.
        apply list_elem_of_In, fieldNames_elem. lia.
      - discriminate Hall. apply list_elem_of_In, fieldNames_elem. lia. }
    split.
    + destruct (decide (length qs ≤ 5)) as [|Hlong]; [done|].
      destruct (Hfield (length qs)); lia.
    + intros i Hi. destruct (Hfield (i + 1)) as [_ Ht]; [lia|].
      by replace (i + 1 - 1) with i in Ht by lia.
  - intros [Hshort Hfilled] name Hin.
    apply list_elem_of_In, fieldNames_inv in Hin as (n & Hname & Hn).
    rewrite (prefilled_required answers qs name n Hname) by lia.
    destruct (decide (n ≤ 5)); [|lia]. apply Hfilled. lia.
Qed.

Lemma submitForm_run u submitted s :
  truthy u = true →
  loading s = false →
  submitForm (Some u) submitted s
  = match validated s with
    | Some values => handleSubmit (Some u) values submitted s
    | None => Run s [] (Returned tt)
    end.
Proof.
  intros Hu Hidle. cbv [submitForm mbind M_bind bind get].
  cbn [final result trace app]. rewrite Hidle.
  destruct (validated s) as [values|]; [|done].
  rewrite (handleSubmit_run u values submitted s Hu). by destruct submitted.
Qed.

(** X18: the round trip through the form. After the modal was opened, both
    fetches resolved and the pre-fill ran, a press of the submit button
    sends the saved answers back when there are at most five questions and
    a non-empty saved answer for each of them: one request, whose
    [question_N] is the saved answer at position [N] for each question
    shown and is absent beyond. In every other case a rule fails and the
    press does nothing. *)
Theorem prefilled_form_submits_saved_answers u qs saved ans_first submitted s :
  truthy u = true →
  qs ≠ [] →
  let s1 := perform_all [OpenChanged true (Some u) (Resolved qs)
                           (Resolved saved) ans_first; Prefill] s in
  let sent n :=
    if decide (n ≤ length qs) then answers saved !! (n - 1) else None in
  (length qs ≤ 5 →
   (∀ i, i < length qs → truthy (default [] (answers saved !! i)) = true) →
   submissions (trace (submitForm (Some u) submitted s1))
   = [ {| user_id := u;
          question_1 := sent 1; question_2 := sent 2; question_3 := sent 3;
          question_4 := sent 4; question_5 := sent 5 |} ]) ∧
  ((∃ i, i < length qs ∧
         (5 ≤ i ∨ truthy (default [] (answers saved !! i)) = false)) →
   submitForm (Some u) submitted s1 = Run s1 [] (Returned tt)).
Proof.
  intros Hu Hqs s1 sent. subst s1.
  rewrite (open_then_prefill_state u qs saved ans_first s Hu Hqs).
  set (store := properties (mapAnswersToFormValues (answers saved))).
  split.
  - intros Hshort Hfilled.
    assert (Hok : forallb (required_ok store) (fieldNames qs) = true)
      by by apply prefilled_validated.
    rewrite submitForm_run by done. unfold validated.
    cbn [questions form]. rewrite Hok.
    rewrite (handleSubmit_run u _ submitted _ Hu).
    assert (Hvalue : ∀ n, 1 ≤ n ≤ 5 →
              filter (fun entry : string * jsstring =>
                        entry.1 ∈ fieldNames qs) store
                !! ("question" +:+ pretty n)
              = sent n).
    { intros n Hn. subst sent. simpl.
      destruct (decide (n ≤ length qs)) as [Hle|Hgt].
      - assert (Ht : truthy (default [] (answers saved !! (n - 1))) = true)
          by (apply Hfilled; lia).
        destruct (answers saved !! (n - 1)) as [a|] eqn:Ea; [|done].
        apply map_lookup_filter_Some. split.
        + subst store. rewrite prefilled_lookup by lia.
          destruct (decide (n ≤ 5)); [|lia]. by rewrite Ea.
        + apply fieldNames_elem. lia.
      - apply map_lookup_filter_None. right. intros x _ Hin.
        apply fieldNames_elem in Hin. lia. }
    unfold request.
    change "question1" with ("question" +:+ pretty 1).
    change "question2" with ("question" +:+ pretty 2).
    change "question3" with ("question" +:+ pretty 3).
    change "question4" with ("question" +:+ pretty 4).
    change "question5" with ("question" +:+ pretty 5).
    rewrite !Hvalue by lia. by destruct submitted.
  - intros (i & Hi & Hbad).
    assert (Hfail : forallb (required_ok store) (fieldNames qs) = false).
    { destruct (forallb (required_ok store) (fieldNames qs)) eqn:Hok; [|done].
      apply prefilled_validated in Hok as [Hshort Hfilled].
      destruct Hbad as [Hfar|Hempty]; [lia|].
      by rewrite (Hfilled i Hi) in Hempty. }
    rewrite submitForm_run by done. unfold validated.
    cbn [questions form]. by rewrite Hfail.
Qed.

Lemma prefilled_form_submits_saved_answers_witness :
  let opened answers :=
    perform_all
      [OpenChanged true (Some Samples.alice)
         (Resolved [lit "Risk?"; lit "Horizon?"])
         (Resolved {| answers := answers |}) false;
       Prefill]
      initial in
  submissions
    (trace (submitForm (Some Samples.alice) (Resolved Samples.report)
              (opened [lit "low"; lit "5y"; lit "unused"])))
  = [ {| user_id := Samples.alice;
         question_1 := Some (lit "low"); question_2 := Some (lit "5y");
         question_3 := None; question_4 := None; question_5 := None |} ] ∧
  submitForm (Some Samples.alice) (Resolved Samples.report)
    (opened [lit "low"])
  = Run (opened [lit "low"]) [] (Returned tt).
Proof.
  intros opened. split.
  - apply (prefilled_form_submits_saved_answers Samples.alice
             [lit "Risk?"; lit "Horizon?"]
             {| answers := [lit "low"; lit "5y"; lit "unused"] |} false
             (Resolved Samples.report) initial);
      [reflexivity|discriminate|simpl; lia|].
    intros [|[|i]] Hi; simpl in Hi; [reflexivity|reflexivity|lia].
  - apply (prefilled_form_submits_saved_answers Samples.alice
             [lit "Risk?"; lit "Horizon?"]
             {| answers := [lit "low"] |} false
             (Resolved Samples.report) initial);
      [reflexivity|discriminate|].
    exists 1. split; [simpl; lia|]. by right.
Defined.

(** X19: saved answers beyond the fifth are ignored by the pre-fill. *)
Theorem mapAnswersToFormValues_first_five answers :
  mapAnswersToFormValues (take 5 answers) = mapAnswersToFormValues answers.
Proof.
  unfold mapAnswersToFormValues. by rewrite !lookup_take_lt by lia.
Qed.

(** X20: the request depends on the form values only through the five
    fields [question1] .. [question5]: whatever else the form holds, a sixth
    answer say, is not sent. *)
Theorem request_reads_five_fields u (values values' : gmap string jsstring) :
  (∀ k, k ∈ answerFields → values !! k = values' !! k) →
  request u values = request u values'.
Proof.
  intros Hsame. unfold request.
  rewrite !(Hsame _) by (unfold answerFields; rewrite !elem_of_cons; tauto).
  done.
Qed.

Lemma request_reads_five_fields_witness :
  request Samples.alice (<["question6" := lit "more"]> Samples.filled_form)
  = request Samples.alice Samples.filled_form.
Proof.
  apply request_reads_five_fields. intros k Hk.
  apply lookup_insert_ne. intros <-.
  unfold answerFields in Hk. rewrite !elem_of_cons, elem_of_nil in Hk.
  by destruct Hk as [|[|[|[|[|]]]]].
Defined.

(** X21: without a user identity ([null], [undefined] or the empty string)
    a submission does nothing: no request, no loading state, no change. *)
Theorem handleSubmit_needs_user user values submitted s :
  truthy_opt user = false →
  handleSubmit user values submitted s = Run s [] (Returned tt).
Proof. apply handleSubmit_without_user. Qed.

Lemma handleSubmit_needs_user_witness :
  handleSubmit (Some []) Samples.filled_form (Resolved Samples.report)
    Samples.answering
  = Run Samples.answering [] (Returned tt).
Proof.
  apply handleSubmit_needs_user. reflexivity.
Defined.

(** X22: once the saved answers and at least one question are there, the
    pre-fill effect overwrites the five answer fields of the form with the
    saved answers (the empty string where there is none) and leaves every
    other field and the rest of the state as they are. *)
Theorem prefillEffect_overwrites_answer_fields s saved :
  savedAnswers s = Some saved →
  questions s ≠ [] →
  let r := prefillEffect s in
  (∀ n, 1 ≤ n ≤ 5 →
     form (final r) !! ("question" +:+ pretty n)
     = Some (default [] (answers saved !! (n - 1)))) ∧
  (∀ k, k ∉ answerFields → form (final r) !! k = form s !! k) ∧
  trace r = [] ∧
  loading (final r) = loading s ∧
  questions (final r) = questions s ∧
  savedAnswers (final r) = savedAnswers s ∧
  summaryModalOpen (final r) = summaryModalOpen s ∧
  summaryData (final r) = summaryData s.
Proof.
  intros Hsaved Hq. simpl. split.
  { intros n Hn. by apply prefillEffect_fills_form. }
  unfold prefillEffect, mbind, M_bind, bind. simpl. rewrite Hsaved.
  destruct (questions s) as [|q qs] eqn:Eq; [done|]. simpl.
  repeat split; try done. intros k Hk.
  by rewrite lookup_union_r by by apply properties_other.
Qed.

Lemma prefillEffect_overwrites_answer_fields_witness :
  let s :=
    {| loading := false; questions := [lit "Risk?"];
       savedAnswers := Some {| answers := [lit "high risk"] |};
       form := <["note" := lit "kept"]> Samples.filled_form;
       summaryModalOpen := false; summaryData := [] |} in
  form (final (prefillEffect s)) !! "question1" = Some (lit "high risk") ∧
  form (final (prefillEffect s)) !! "note" = Some (lit "kept").
Proof.
  intros s.
  destruct (prefillEffect_overwrites_answer_fields s
              {| answers := [lit "high risk"] |})
    as (Hfields & Hothers & _); [reflexivity|discriminate|].
  split.
  - apply (Hfields 1). lia.
  - rewrite Hothers; [reflexivity|]. unfold answerFields.
    rewrite !not_elem_of_cons. repeat split; try discriminate.
    apply not_elem_of_nil.
Defined.

(** X23: the pre-fill waits for both: without saved answers, or while the
    list of questions is empty, the effect changes nothing. *)
Theorem prefillEffect_needs_both s :
  savedAnswers s = None ∨ questions s = [] →
  prefillEffect s = Run s [] (Returned tt).
Proof. apply prefillEffect_waits. Qed.

Lemma prefillEffect_needs_both_witness :
  let s :=
    {| loading := false; questions := [];
       savedAnswers := Some {| answers := [lit "high risk"] |};
       form := ∅; summaryModalOpen := false; summaryData := [] |} in
  prefillEffect s = Run s [] (Returned tt).
Proof.
  intros s. apply prefillEffect_needs_both. by right.
Defined.

(** X24: the form has one field per question, each under its own name:
    [questionN] names a field exactly for [N] from 1 to the number of
    questions. *)
Theorem fieldNames_one_per_question (qs : list jsstring) :
  length (fieldNames qs) = length qs ∧
  NoDup (fieldNames qs) ∧
  ∀ n, ("question" +:+ pretty n) ∈ fieldNames qs ↔ 1 ≤ n ≤ length qs.
Proof.
  unfold fieldNames.
  rewrite (imap_seq_0 qs (fun index => "question" +:+ pretty (index + 1))).
  assert (Hinj : Inj (=) (=)
            (fun index : nat => "question" +:+ pretty (index + 1))).
  { intros i j Hij. apply (inj (String.app "question")) in Hij.
    apply (inj pretty) in Hij. lia. }
  split; [by rewrite length_fmap, length_seq|].
  split; [apply NoDup_fmap; [done|apply NoDup_seq]|].
  intros n. rewrite list_elem_of_fmap. split.
  - intros (i & Hi & Hin). apply elem_of_seq in Hin.
    apply (inj (String.app "question")) in Hi. apply (inj pretty) in Hi. lia.
  - intros Hn. exists (n - 1). split.
    + by replace (n - 1 + 1) with n by lia.
    + apply elem_of_seq. lia.
Qed.
(** X25: the data load is all or nothing: it always sends the two requests,
    once each, and it stores the questions and the saved answers when both
    requests succeed; when either fails it stores neither, the one that
    arrived included. *)
Theorem loadData_all_or_nothing user qs ans ans_first s :
  let r := loadData user qs ans ans_first s in
  List.filter is_request (trace r) = [CallGetQuestions; CallGetAnswers user] ∧
  match qs, ans with
  | Resolved questionsResponse, Resolved answersResponse =>
      questions (final r) = questionsResponse ∧
      savedAnswers (final r) = Some answersResponse
  | _, _ =>
      questions (final r) = questions s ∧
      savedAnswers (final r) = savedAnswers s
  end.
Proof.
  intros r. subst r. rewrite loadData_run.
  by destruct qs as [q|e1], ans as [a|e2]; simpl; try destruct ans_first.
Qed.
End SurveyBehaviour.

(** ** The transcript after long history pages *)

Module ChatBounds.
Import ChatApi ChatPage ChatFacts.

(** X26: the transcript never grows beyond the larger of the capacity and
    the longest history page loaded: when every page holds at most [n]
    messages, for an [n] of at least [2 * messagesPerPage], so does the
    transcript in every state the page reaches. *)
Theorem transcript_bounded_by_longest_page n s :
  capacity ≤ n →
  reachable (fun data => held data ≤ n) s →
  length (messages s) ≤ n.
Proof.
  intros Hn. apply reachable_length_le; [done|]. by intros data Hd.
Qed.

Lemma transcript_bounded_by_longest_page_witness :
  length (messages
    (perform_all [InitialLoad (Some Samples.alice) (Resolved Samples.long_page);
                  Recommend (lit "2025-03-03T09:00:00.000Z")]
                 initial)) ≤ 41.
Proof.
  apply transcript_bounded_by_longest_page; [vm_compute; lia|].
  cbv [perform_all foldl].
  repeat (apply reachable_perform; [|intros data [= <-]; vm_compute; lia]).
  apply reachable_initial.
Defined.
End ChatBounds.
